(** * OpenDao order ingestion and the named-source registry

    A shallow embedding of [save] (the OpenDao order processor) and of the
    lookup methods of the [Sources] class, with the properties of the
    ingestion pipeline stated over it.

    Conventions of the embedding:
    - token amounts and quantities are the unsigned integers of the
      protocol's order struct, carried as decimal strings in the payload and
      read with [bn]; they are [N] in the order record and [Z] once they are
      BigNumbers;
    - the orders table is a finite map keyed by the order identity, its
      primary key;
    - one invocation of [handleOrder] is a computation in the [flow] monad,
      which tells apart falling through to the next statement, an early
      [return results.push(...)] and an exception reaching the [catch];
    - the external collaborators (SDK, checker, token-set registry, clock)
      are the fields of an environment record;
    - the handlers of a batch run under [pLimit(20)]; they read the orders
      table, which [save] writes only after all of them are done, and they
      append to the accumulators. They are run here one after the other, in
      the order of the input. *)

From stdpp Require Import gmap strings list fin_maps.
From Stdlib Require Import ZArith Lia.

Local Open Scope string_scope.
Local Open Scope list_scope.
Local Open Scope Z_scope.

(** ** Control flow of one handler invocation *)

Inductive flow (A : Type) : Type :=
  | Next (a : A)                  (* execution continues with the next statement *)
  | Return (id status : string)   (* return results.push({ id, status }) *)
  | Throw.                        (* an exception travels to the enclosing catch *)
Arguments Next {A} a.
Arguments Return {A} id status.
Arguments Throw {A}.

#[global] Instance flow_ret : MRet flow := λ A a, Next a.
#[global] Instance flow_bind : MBind flow := λ A B f m,
  match m with
  | Next a => f a
  | Return id status => Return id status
  | Throw => Throw
  end.

(** A call that either yields a value or throws (a rejected promise when the
    call is awaited); [message] is [error.message]. *)
Inductive result (A : Type) : Type :=
  | Ok (a : A)
  | Err (message : string).
Arguments Ok {A} a.
Arguments Err {A} message.

(** Outside a local try/catch the exception travels on. *)
Definition try_ {A} (r : result A) : flow A :=
  match r with
  | Ok a => Next a
  | Err _ => Throw
  end.

(** ** BigNumber operations used by the pricing code *)

Module Bn.

(** [a.div(b)]: truncating division, a division-by-zero fault when [b] is 0. *)
Definition div (a b : Z) : flow Z :=
  if b =? 0 then Throw else Next (a ÷ b).

(** [a.toNumber()]: an overflow fault outside the safe-integer range. *)
Definition toNumber (a : Z) : flow Z :=
  if Z.abs a <=? 2 ^ 53 - 1 then Next a else Throw.

End Bn.

(** ** Data model *)

Module Sdk.

(** [Sdk.OpenDao.Types.TradeDirection] *)
Inductive TradeDirection : Set := SELL | BUY.

Record Fee : Set := {
  recipient : string;
  amount : N;
  feeData : string;
}.

(** [Sdk.OpenDao.Types.BaseOrder], the fields [save] reads. *)
Record BaseOrder : Set := {
  kind : option string;
  direction : TradeDirection;
  maker : string;
  taker : string;
  expiry : Z;
  nonce : string;
  erc20Token : string;
  erc20TokenAmount : N;
  fees : list Fee;
  nft : string;
  nftId : string;
  nftAmount : option N;
}.

(** [order.getFeeAmount()]: the sum of the declared fee amounts. *)
Definition getFeeAmount (o : BaseOrder) : Z :=
  foldr (λ f acc, Z.of_N (amount f) + acc) 0 (fees o).

End Sdk.

#[global] Instance TradeDirection_eq_dec : EqDecision Sdk.TradeDirection.
Proof. solve_decision. Defined.

(** Result of [commonHelpers.getContractKind]. *)
Inductive ContractKind : Set := erc721 | erc1155.

Definition kindName (k : ContractKind) : string :=
  match k with
  | erc721 => "erc721"
  | erc1155 => "erc1155"
  end.

Record OrderMetadata : Set := {
  schemaHash : option string;
  schema : option string;
  source : option string;
}.

Record OrderInfo : Set := {
  orderParams : Sdk.BaseOrder;
  metadata : OrderMetadata;
}.

Module SaveResult.
Record t : Set := { id : string; status : string }.
End SaveResult.

Module DbOrder.

Record FeeBreakdown : Set := {
  fee_kind : string;
  fee_recipient : string;
  bps : Z;
}.

(** A row of the orders table, [DbOrder]. [valid_between] and [expiration]
    are the SQL fragments built from [order.params.expiry]; they are kept as
    the bounds they denote. *)
Record t : Set := {
  id : string;
  kind : string;
  side : string;
  fillability_status : string;
  approval_status : string;
  token_set_id : string;
  token_set_schema_hash : string;
  maker : string;
  taker : string;
  price : Z;
  value : Z;
  quantity_remaining : option N;
  valid_between : Z * Z;
  nonce : string;
  source_id : option string;
  contract : string;
  fee_bps : Z;
  fee_breakdown : list FeeBreakdown;
  raw_data : Sdk.BaseOrder;
  expiration : Z;
}.

End DbOrder.

(** Argument of [tokenSet.singleToken.save]. *)
Record TokenSetRequest : Set := {
  ts_id : string;
  ts_schemaHash : string;
  ts_contract : string;
  ts_tokenId : string;
}.

(** Entry of [arweaveData]. *)
Record ArweaveEntry : Set := {
  aw_order : Sdk.BaseOrder;
  aw_schemaHash : string;
  aw_source : string;
}.

(** Item handed to [ordersUpdateById.addToQueue]. *)
Record QueueItem : Set := {
  context : string;
  item_id : string;
  trigger_kind : string;
}.

Definition AddressZero : string := "0x0000000000000000000000000000000000000000".

(** ** External collaborators *)

Record Env : Type := {
  (* Sdk.Common.Addresses.Weth[config.chainId] *)
  Weth : string;
  (* Sdk.OpenDao.Addresses.Eth[config.chainId] *)
  Eth : string;
  (* Sdk.OpenDao.Addresses.Exchange[config.chainId] *)
  Exchange : string;
  (* Math.floor(Date.now() / 1000) *)
  currentTime : Z;
  (* new Sdk.OpenDao.Order(config.chainId, orderParams): the normalized
     params, or an exception *)
  newOrder : Sdk.BaseOrder → result Sdk.BaseOrder;
  (* order.hash() *)
  hash : Sdk.BaseOrder → string;
  (* toBuffer, from common/utils *)
  toBuffer : string → string;
  (* commonHelpers.getContractKind *)
  getContractKind : string → result (option ContractKind);
  (* order.checkValidity() and order.checkSignature(): false when they throw *)
  checkValidity : Sdk.BaseOrder → bool;
  checkSignature : Sdk.BaseOrder → bool;
  (* offChainCheck(order) *)
  offChainCheck : Sdk.BaseOrder → result unit;
  (* generateSchemaHash(metadata.schema) *)
  generateSchemaHash : option string → string;
  (* tokenSet.singleToken.save: the ids of the token sets it returns *)
  singleTokenSave : TokenSetRequest → result (list string);
  (* The column order_kind of a stored row. The nonce lookups filter on it
     and the insert of save, which writes kind, does not write it: its value
     is the one that the table, declared outside this file, gives it for the
     row. None is NULL. *)
  order_kind : DbOrder.t → option string;
}.

(** ** The orders table *)

(** [idb.oneOrNone]: null for no row, the row for one, a rejection for more. *)
Definition oneOrNone {A} (rows : list A) : flow (option A) :=
  match rows with
  | [] => Next None
  | [r] => Next (Some r)
  | _ => Throw
  end.

(** [SELECT ... FROM orders WHERE cond] *)
Definition select (cond : DbOrder.t → bool) (tbl : gmap string DbOrder.t) : list DbOrder.t :=
  filter (λ r, cond r = true) (map_to_list tbl).*2.

(** Modelled from the spec: the constraint of the orders table, which is
    declared outside this module. The table is keyed by the order identity
    and the bulk insert does nothing on a conflicting identity: a row whose
    identity is already known, in the table or earlier in the same statement,
    is skipped. *)
Definition insertOnConflictDoNothing
    (tbl : gmap string DbOrder.t) (rows : list DbOrder.t) : gmap string DbOrder.t :=
  foldl (λ t r, match t !! DbOrder.id r with
                | Some _ => t
                | None => <[DbOrder.id r := r]> t
                end) tbl rows.

(** ** One order through the pipeline: [handleOrder] *)

Section HandleOrder.

Context (e : Env).

(** The WHERE clause of the nonce lookup, per contract kind. *)
Definition nonceQuery (kind : ContractKind) (o : Sdk.BaseOrder) (r : DbOrder.t) : bool :=
  match kind with
  | erc1155 =>
      (* For erc1155, enforce uniqueness of maker/nonce. *)
      bool_decide (order_kind e r = Some "opendao-erc1155")
      && bool_decide (DbOrder.maker r = toBuffer e (Sdk.maker o))
      && bool_decide (DbOrder.nonce r = Sdk.nonce o)
  | erc721 =>
      (* For erc721, enforce uniqueness of maker/nonce/contract/price. *)
      bool_decide (order_kind e r = Some "opendao-erc721")
      && bool_decide (DbOrder.maker r = toBuffer e (Sdk.maker o))
      && bool_decide (DbOrder.nonce r = Sdk.nonce o)
      && bool_decide (DbOrder.contract r = toBuffer e (Sdk.nft o))
      && bool_decide (DbOrder.price r = Z.of_N (Sdk.erc20TokenAmount o))
  end.

(** The checks that run before the on-chain fillability check: existence,
    contract kind, nonce, expiry, payment token, taker, validity, signature. *)
Definition earlyChecks (tbl : gmap string DbOrder.t) (oi : OrderInfo)
    : flow (Sdk.BaseOrder * string * ContractKind) :=
  order ← try_ (newOrder e (orderParams oi));
  let id := hash e order in
  (* Check: order doesn't already exist *)
  orderExists ← oneOrNone (option_list (tbl !! id));
  if orderExists is Some _ then Return id "already-exists" else
  (* Handle: get order kind *)
  kind ← try_ (getContractKind e (Sdk.nft order));
  match kind with
  | None => Return id "unknown-order-kind"
  | Some kind =>
  (* Check: order has unique nonce *)
  nonceExists ← oneOrNone (select (nonceQuery kind order) tbl);
  if nonceExists is Some _ then Return id "duplicated-nonce" else
  (* Check: order is not expired *)
  if Sdk.expiry order <=? currentTime e then Return id "expired" else
  (* Check: buy order has Weth as payment token *)
  if bool_decide (Sdk.direction order = Sdk.BUY)
     && bool_decide (Sdk.erc20Token order ≠ Weth e)
  then Return id "unsupported-payment-token" else
  (* Check: sell order has Eth as payment token *)
  if bool_decide (Sdk.direction order = Sdk.BUY)
     && bool_decide (Sdk.erc20Token order ≠ Eth e)
  then Return id "unsupported-payment-token" else
  (* Check: order is not private *)
  if bool_decide (Sdk.taker order ≠ AddressZero) then Return id "unsupported-taker" else
  (* Check: order is valid *)
  if negb (checkValidity e order) then Return id "invalid" else
  (* Check: order has a valid signature *)
  if negb (checkSignature e order) then Return id "invalid-signature" else
  Next (order, id, kind)
  end.

(** Check: order fillability. Yields [(fillabilityStatus, approvalStatus)]. *)
Definition fillabilityCheck (order : Sdk.BaseOrder) (id : string) : flow (string * string) :=
  match offChainCheck e order with
  | Ok _ => Next ("fillable", "approved")
  | Err message =>
      (* Keep any orders that can potentially get valid in the future *)
      if bool_decide (message = "no-balance-no-approval") then Next ("no-balance", "no-approval")
      else if bool_decide (message = "no-approval") then Next ("fillable", "no-approval")
      else if bool_decide (message = "no-balance") then Next ("no-balance", "approved")
      else Return id "not-fillable"
  end.

(** Check and save: associated token set. Yields [(tokenSetId, schemaHash)]. *)
Definition resolveTokenSet (order : Sdk.BaseOrder) (md : OrderMetadata) (id : string)
    : flow (string * string) :=
  let schemaHash := default (generateSchemaHash e (schema md)) (schemaHash md) in
  tokenSetId ←
    match Sdk.kind order with
    | Some k =>
        if bool_decide (k = "erc721-single-token") || bool_decide (k = "erc1155-single-token")
        then
          sets ← try_ (singleTokenSave e
                         {| ts_id := "token:" +:+ Sdk.nft order +:+ ":" +:+ Sdk.nftId order;
                            ts_schemaHash := schemaHash;
                            ts_contract := Sdk.nft order;
                            ts_tokenId := Sdk.nftId order |});
          (* [{ id: tokenSetId }] = ...: destructuring an empty array throws *)
          match sets with
          | [] => Throw
          | s :: _ => Next (Some s)
          end
        else Next None
    | None => Next None
    end;
  match tokenSetId with
  | Some t => if bool_decide (t = "") then Return id "invalid-token-set" else Next (t, schemaHash)
  | None => Return id "invalid-token-set"
  end.

Definition side (order : Sdk.BaseOrder) : string :=
  if bool_decide (Sdk.direction order = Sdk.BUY) then "buy" else "sell".

(** [order.params.kind?.startsWith("erc1155")] *)
Definition startsWithErc1155 (order : Sdk.BaseOrder) : bool :=
  match Sdk.kind order with
  | Some k => String.prefix "erc1155" k
  | None => false
  end.

(** Handle: fees, price and value. Yields [(price, value, feeBps)]. *)
Definition priceValueFee (order : Sdk.BaseOrder) : flow (Z * Z * Z) :=
  let feeAmount := Sdk.getFeeAmount order in
  let price := Z.of_N (Sdk.erc20TokenAmount order) + feeAmount in
  let value := if bool_decide (side order = "buy") then price - feeAmount else price in
  (* The price and value are for a single item *)
  pv ← (if startsWithErc1155 order then
          match Sdk.nftAmount order with
          | Some q =>
              p ← Bn.div price (Z.of_N q);
              v ← Bn.div value (Z.of_N q);
              Next (p, v)
          | None => Throw
          end
        else Next (price, value));
  feeBps ← Bn.div (feeAmount * 10000) pv.1;
  Next (pv.1, pv.2, feeBps).

Definition pricing (order : Sdk.BaseOrder) (id : string) : flow (Z * Z * Z) :=
  pvf ← priceValueFee order;
  if 10000 <? pvf.2 then Return id "fees-too-high" else Next pvf.

(** Handle: source and fees breakdown, and the row pushed to [orderValues]. *)
Definition buildRow (order : Sdk.BaseOrder) (md : OrderMetadata) (id : string)
    (kind : ContractKind) (status : string * string) (ts : string * string)
    (pvf : Z * Z * Z) : flow (DbOrder.t * ArweaveEntry) :=
  let '(fillabilityStatus, approvalStatus) := status in
  let '(tokenSetId, schemaHash) := ts in
  let '(price, value, feeBps) := pvf in
  let source := default (Exchange e) (source md) in
  feeBreakdown ← mapM (λ f,
      q ← Bn.div (Z.of_N (Sdk.amount f) * 10000) price;
      n ← Bn.toNumber q;
      Next {| DbOrder.fee_kind := "royalty";
              DbOrder.fee_recipient := Sdk.recipient f;
              DbOrder.bps := n |}) (Sdk.fees order);
  feeBpsNumber ← Bn.toNumber feeBps;
  Next ({| DbOrder.id := id;
           DbOrder.kind := "opendao-" +:+ kindName kind;
           DbOrder.side := side order;
           DbOrder.fillability_status := fillabilityStatus;
           DbOrder.approval_status := approvalStatus;
           DbOrder.token_set_id := tokenSetId;
           DbOrder.token_set_schema_hash := toBuffer e schemaHash;
           DbOrder.maker := toBuffer e (Sdk.maker order);
           DbOrder.taker := toBuffer e AddressZero;
           DbOrder.price := price;
           DbOrder.value := value;
           DbOrder.quantity_remaining := Sdk.nftAmount order;
           DbOrder.valid_between := (0, Sdk.expiry order);
           DbOrder.nonce := Sdk.nonce order;
           DbOrder.source_id :=
             if bool_decide (source = "") then None else Some (toBuffer e source);
           DbOrder.contract := toBuffer e (Sdk.nft order);
           DbOrder.fee_bps := feeBpsNumber;
           DbOrder.fee_breakdown := feeBreakdown;
           DbOrder.raw_data := order;
           DbOrder.expiration := Sdk.expiry order |},
        {| aw_order := order; aw_schemaHash := schemaHash; aw_source := source |}).

(** What follows the fillability check: token set, pricing, row. *)
Definition resolvePriceAndBuild (order : Sdk.BaseOrder) (md : OrderMetadata) (id : string)
    (kind : ContractKind) (status : string * string) : flow (DbOrder.t * ArweaveEntry) :=
  ts ← resolveTokenSet order md id;
  pvf ← pricing order id;
  buildRow order md id kind status ts pvf.

(** The body of the [try] block of [handleOrder]. *)
Definition handleOrderBody (tbl : gmap string DbOrder.t) (oi : OrderInfo)
    : flow (DbOrder.t * ArweaveEntry) :=
  '(order, id, kind) ← earlyChecks tbl oi;
  status ← fillabilityCheck order id;
  resolvePriceAndBuild order (metadata oi) id kind status.

(** The accumulators shared by the handlers of one batch. *)
Record Acc : Set := {
  results : list SaveResult.t;
  orderValues : list DbOrder.t;
  arweaveData : list ArweaveEntry;
}.

Definition emptyAcc : Acc :=
  {| results := []; orderValues := []; arweaveData := [] |}.

Definition pushResult (acc : Acc) (id status : string) : Acc :=
  {| results := results acc ++ [{| SaveResult.id := id; SaveResult.status := status |}];
     orderValues := orderValues acc;
     arweaveData := arweaveData acc |}.

(** [handleOrder]: the body, with its pushes to the accumulators and its
    catch-all, which logs and pushes nothing. The id of the row is the id of
    the order. *)
Definition handleOrder (tbl : gmap string DbOrder.t) (relayToArweave : bool)
    (acc : Acc) (oi : OrderInfo) : Acc :=
  match handleOrderBody tbl oi with
  | Next (row, aw) =>
      {| results := results acc ++ [{| SaveResult.id := DbOrder.id row;
                                       SaveResult.status := "success" |}];
         orderValues := orderValues acc ++ [row];
         arweaveData := if relayToArweave then arweaveData acc ++ [aw]
                        else arweaveData acc |}
  | Return id status => pushResult acc id status
  | Throw => acc
  end.

End HandleOrder.

(** ** The batch: [save] *)

(** Calls on the collaborators that change state outside the handler. *)
Inductive Effect : Set :=
  | InsertOrders (rows : list DbOrder.t)            (* idb.none(insert ... ON CONFLICT DO NOTHING) *)
  | AddToQueue (items : list QueueItem)             (* ordersUpdateById.addToQueue *)
  | AddPendingOrdersOpenDao (data : list ArweaveEntry).   (* arweaveRelay.addPendingOrdersOpenDao *)

Record World : Set := {
  orders : gmap string DbOrder.t;
  calls : list Effect;
}.

Definition newOrderItem (r : SaveResult.t) : QueueItem :=
  {| context := "new-order-" +:+ SaveResult.id r;
     item_id := SaveResult.id r;
     trigger_kind := "new-order" |}.

Definition isSuccess (r : SaveResult.t) : bool :=
  bool_decide (SaveResult.status r = "success").

(** [save]. The handlers only read the orders table and append to the
    accumulators, and every write happens after all of them are done. A
    handler appends when it completes, in one step, so the accumulators hold
    the orders in the order in which their handlers complete, which under
    the limiter of the source is some rearrangement of the input:
    [orderInfos] is the batch in that order. *)
Definition save (e : Env) (w : World) (orderInfos : list OrderInfo) (relayToArweave : bool)
    : World * list SaveResult.t :=
  let acc := foldl (handleOrder e (orders w) relayToArweave) emptyAcc orderInfos in
  let w' :=
    match orderValues acc with
    | [] => w
    | _ =>
        {| orders := insertOnConflictDoNothing (orders w) (orderValues acc);
           calls := calls w
                    ++ [InsertOrders (orderValues acc);
                        AddToQueue (newOrderItem <$> filter (λ r, isSuccess r = true) (results acc))]
                    ++ (if relayToArweave
                        then [AddPendingOrdersOpenDao (arweaveData acc)] else []) |}
    end in
  (w', results acc).

(** The environment at another reading of the clock. *)
Definition atTime (e : Env) (t : Z) : Env :=
  {| Weth := Weth e; Eth := Eth e; Exchange := Exchange e;
     currentTime := t;
     newOrder := newOrder e; hash := hash e; toBuffer := toBuffer e;
     getContractKind := getContractKind e;
     checkValidity := checkValidity e; checkSignature := checkSignature e;
     offChainCheck := offChainCheck e;
     generateSchemaHash := generateSchemaHash e;
     singleTokenSave := singleTokenSave e;
     order_kind := order_kind e |}.

(** What one handler appends to [results] and to [orderValues]. *)
Definition resultsOf {A} (id_of : A → string) (m : flow A) : list SaveResult.t :=
  match m with
  | Next a => [{| SaveResult.id := id_of a; SaveResult.status := "success" |}]
  | Return id status => [{| SaveResult.id := id; SaveResult.status := status |}]
  | Throw => []
  end.

Definition rowsOf {A} (m : flow A) : list A :=
  match m with
  | Next a => [a]
  | _ => []
  end.

(** What one handler appends, seen from the batch. *)
Definition outcomeOf (e : Env) (tbl : gmap string DbOrder.t) (oi : OrderInfo) : list SaveResult.t :=
  resultsOf (λ ra : DbOrder.t * ArweaveEntry, DbOrder.id ra.1) (handleOrderBody e tbl oi).

Definition acceptedOf (e : Env) (tbl : gmap string DbOrder.t) (oi : OrderInfo)
    : list (DbOrder.t * ArweaveEntry) :=
  rowsOf (handleOrderBody e tbl oi).

(** The statuses a handler returns early with. *)
Definition rejections : list string :=
  ["already-exists"; "unknown-order-kind"; "duplicated-nonce"; "expired";
   "unsupported-payment-token"; "unsupported-taker"; "invalid"; "invalid-signature";
   "not-fillable"; "invalid-token-set"; "fees-too-high"].

(** The value before the division by the quantity. *)
Definition netValue (order : Sdk.BaseOrder) : Z :=
  let price := Z.of_N (Sdk.erc20TokenAmount order) + Sdk.getFeeAmount order in
  match Sdk.direction order with
  | Sdk.BUY => price - Sdk.getFeeAmount order
  | Sdk.SELL => price
  end.

(** The stages after the fillability check let the order through: its
    token set resolves, its price divides, and its fee rate is within the
    bound. *)
Definition laterStagesPass (e : Env) (oi : OrderInfo) (order : Sdk.BaseOrder) (id : string)
    : Prop :=
  ∃ ts p v b, resolveTokenSet e order (metadata oi) id = Next ts
              ∧ priceValueFee order = Next (p, v, b)
              ∧ b ≤ 10000.

(** Saved alone, the order is reported as [success] and its row, new to the
    table, is written with the given flags. *)
Definition persistedWith (e : Env) (w : World) (oi : OrderInfo) (relayToArweave : bool)
    (id fillabilityStatus approvalStatus : string) : Prop :=
  ∃ row, (save e w [oi] relayToArweave).2
         = [{| SaveResult.id := id; SaveResult.status := "success" |}]
         ∧ orders w !! id = None
         ∧ orders (save e w [oi] relayToArweave).1 = <[id := row]> (orders w)
         ∧ DbOrder.fillability_status row = fillabilityStatus
         ∧ DbOrder.approval_status row = approvalStatus.

(** * The named-source registry *)

Module Sources.

Record Metadata : Set := {
  icon : option string;
  tokenUrlMainnet : option string;
  tokenUrlRinkeby : option string;
  tokenUrlFantom : option string;
  url : option string;
}.

(** [SourcesEntity] and its metadata, declared in another file of the
    models: the fields are those that this class reads and writes. *)
Record SourcesEntity : Set := {
  id : Z;
  address : string;
  name : string;
  metadata : Metadata;
}.

(** The three lookup objects of the class. Each starts as [{}], so besides
    its own properties, kept in the maps, it has those it inherits from
    [Object.prototype]. The keys of [sources] are numbers, which name no
    inherited property, so that object is kept as its own properties alone. *)
Record t : Type := {
  sources : gmap Z SourcesEntity;
  sourcesByNames : gmap string SourcesEntity;
  sourcesByAddress : gmap string SourcesEntity;
}.

(** The property names of [Object.prototype]. *)
Definition objectPrototype : list string :=
  ["constructor"; "__defineGetter__"; "__defineSetter__"; "hasOwnProperty";
   "__lookupGetter__"; "__lookupSetter__"; "isPrototypeOf"; "propertyIsEnumerable";
   "toString"; "valueOf"; "__proto__"; "toLocaleString"].

(** What a property read on a lookup object gives. *)
Inductive JsValue : Set :=
  | Entity (s : SourcesEntity)
  | Inherited (key : string)     (* a member of Object.prototype *)
  | Undefined.

(** [key in obj] *)
Definition hasProperty (key : string) (obj : gmap string SourcesEntity) : bool :=
  bool_decide (is_Some (obj !! key)) || bool_decide (key ∈ objectPrototype).

(** [obj[key]] *)
Definition getProperty (key : string) (obj : gmap string SourcesEntity) : JsValue :=
  match obj !! key with
  | Some s => Entity s
  | None => if bool_decide (key ∈ objectPrototype) then Inherited key else Undefined
  end.

Definition lowerChar (c : Ascii.ascii) : Ascii.ascii :=
  let n := Ascii.nat_of_ascii c in
  if (65 <=? n)%nat && (n <=? 90)%nat then Ascii.ascii_of_nat (n + 32) else c.

(** [_.toLower] on a string of ASCII characters. Beyond ASCII lodash lowers
    the other cased letters too, which this function leaves as they are:
    statements on letter case are made on the strings of [isAscii]. *)
Fixpoint toLower (s : string) : string :=
  match s with
  | EmptyString => EmptyString
  | String c s' => String (lowerChar c) (toLower s')
  end.

Fixpoint isAscii (s : string) : bool :=
  match s with
  | EmptyString => true
  | String c s' => (Ascii.nat_of_ascii c <? 128)%nat && isAscii s'
  end.

(** A row whose name and address are strings of ASCII characters. *)
Definition asciiSource (s : SourcesEntity) : bool :=
  isAscii (name s) && isAscii (address s).

Record Config : Type := {
  (* config.chainId *)
  chainId : Z;
  (* _.replace *)
  replace : string → string → string → string;
}.

Definition getDefaultSource : SourcesEntity :=
  {| id := 0;
     address := AddressZero;
     name := "Enjoyooor NFT";
     metadata :=
       {| icon := Some "https://enjoyooor.com/logo.png";
          tokenUrlMainnet :=
            Some "https://www.reservoir.market/collections/${contract}/${tokenId}";
          tokenUrlRinkeby :=
            Some "https://www.reservoir.fun/collections/${contract}/${tokenId}";
          tokenUrlFantom :=
            Some "https://www.enjoyooor.com/collections/${contract}/${tokenId}";
          url := None |} |}.

Definition get (self : t) (id : Z) : SourcesEntity :=
  match sources self !! id with
  | Some s => s
  | None => getDefaultSource
  end.

Definition getByName (self : t) (name : string) (returnDefault : bool) : JsValue :=
  if hasProperty (toLower name) (sourcesByNames self)
  then getProperty (toLower name) (sourcesByNames self)
  else if returnDefault then Entity getDefaultSource
  else Undefined.

(** A string is truthy when it is not empty. *)
Definition truthy (s : option string) : bool :=
  match s with
  | Some s => negb (bool_decide (s = ""))
  | None => false
  end.

(** The value [getTokenUrl] returns, which its caller stores in
    [metadata.url]. *)
Definition getTokenUrl (cfg : Config) (s : SourcesEntity) (contract tokenId : string)
    : option string :=
  let template :=
    if chainId cfg =? 1 then tokenUrlMainnet (metadata s) else tokenUrlFantom (metadata s) in
  match template with
  | Some tpl =>
      if truthy (Some tpl) && truthy (Some contract) && truthy (Some tokenId)
      then Some (replace cfg (replace cfg tpl "${contract}" contract) "${tokenId}" tokenId)
      else None
  | None => None
  end.

Definition setUrl (s : SourcesEntity) (u : option string) : SourcesEntity :=
  {| id := id s; address := address s; name := name s;
     metadata := {| icon := icon (metadata s);
                    tokenUrlMainnet := tokenUrlMainnet (metadata s);
                    tokenUrlRinkeby := tokenUrlRinkeby (metadata s);
                    tokenUrlFantom := tokenUrlFantom (metadata s);
                    url := u |} |}.

(** [getByAddress], as the value it returns; the assignment to
    [metadata.url] shows in the entity returned. In the source the entity
    returned is the stored one, so the assignment also shows in later
    lookups of the same address; the instance after the call is not part of
    this function, and nothing below looks a source up after a call with a
    contract and a token id. Reading [metadata.url] of an inherited member
    throws a TypeError. *)
Definition getByAddress (cfg : Config) (self : t) (address : string)
    (contract tokenId : option string) (returnDefault : bool) : result JsValue :=
  let sourceEntity :=
    if hasProperty (toLower address) (sourcesByAddress self)
    then getProperty (toLower address) (sourcesByAddress self)
    else if returnDefault then Entity getDefaultSource
    else Undefined in
  match sourceEntity, contract, tokenId with
  | Entity s, Some c, Some i =>
      if truthy contract && truthy tokenId
      then Ok (Entity (setUrl s (getTokenUrl cfg s c i)))
      else Ok sourceEntity
  | Inherited _, Some c, Some i =>
      if truthy contract && truthy tokenId then Err "TypeError" else Ok sourceEntity
  | _, _, _ => Ok sourceEntity
  end.

(** *** Loading *)

(** The redis key ["sources"] and the table [sources_v2]. The key holds the
    JSON of the rows it was written from, which [JSON.parse] gives back; it
    is absent before the first write and after it expires. The rows are in
    the order in which the query returns them. A row has the fields of an
    entity, and [new SourcesEntity(source)] is the entity with these fields. *)
Record Store : Type := {
  cache : option (list SourcesEntity);
  table : list SourcesEntity;
}.

(** [obj[key] = s] on a lookup object. Assigning to the key [__proto__]
    would replace the prototype of the object instead of adding a property,
    which takes the object out of what [t] describes: there is no result
    then. *)
Definition assign (key : string) (s : SourcesEntity) (obj : gmap string SourcesEntity)
    : option (gmap string SourcesEntity) :=
  if bool_decide (key = "__proto__") then None else Some (<[key := s]> obj).

(** One turn of the loop of [loadData]. *)
Definition loadSource (self : t) (source : SourcesEntity) : option t :=
  byNames ← assign (toLower (name source)) source (sourcesByNames self);
  byAddress ← assign (toLower (address source)) source (sourcesByAddress self);
  Some {| sources := <[id source := source]> (sources self);
          sourcesByNames := byNames;
          sourcesByAddress := byAddress |}.

Fixpoint loadSources (self : t) (rows : list SourcesEntity) : option t :=
  match rows with
  | [] => Some self
  | source :: rows => self' ← loadSource self source; loadSources self' rows
  end.

(** The rows [loadData] loads: the cached ones, unless there are none or a
    load from the table is forced. *)
Definition rowsToLoad (forceDbLoad : bool) (st : Store) : list SourcesEntity :=
  match cache st with
  | Some cached => if forceDbLoad then table st else cached
  | None => table st
  end.

(** [loadData]: the store and the instance after the load. A load from the
    table writes the rows to the cache. *)
Definition loadData (forceDbLoad : bool) (st : Store) (self : t) : option (Store * t) :=
  let st' :=
    match cache st with
    | Some cached =>
        if forceDbLoad then {| cache := Some (table st); table := table st |} else st
    | None => {| cache := Some (table st); table := table st |}
    end in
  self' ← loadSources self (rowsToLoad forceDbLoad st);
  Some (st', self').

(** *** [getOrInsert] *)

Definition isHexDigit (c : Ascii.ascii) : bool :=
  let n := Ascii.nat_of_ascii c in
  ((48 <=? n)%nat && (n <=? 57)%nat)
  || ((97 <=? n)%nat && (n <=? 102)%nat)
  || ((65 <=? n)%nat && (n <=? 70)%nat).

Fixpoint allHexDigits (s : string) : bool :=
  match s with
  | EmptyString => true
  | String c s' => isHexDigit c && allHexDigits s'
  end.

(** [source.match(/^0x[a-fA-F0-9]{40}$/)] *)
Definition isAddress (source : string) : bool :=
  match source with
  | String c0 (String c1 digits) =>
      (Ascii.nat_of_ascii c0 =? 48)%nat          (* 0 *)
      && (Ascii.nat_of_ascii c1 =? 120)%nat      (* x *)
      && (String.length digits =? 40)%nat
      && allHexDigits digits
  | _ => false
  end.

(** How [getOrInsert] ends: with the value a lookup gave, with what
    [this.create(name, address)] gives, for the name and the address it
    calls it with, or with the exception of a lookup. *)
Inductive GetOrInsert : Set :=
  | Returns (v : JsValue)
  | Creates (name address : string)
  | Throws (message : string).

(** [!sourceEntity] *)
Definition falsy (v : JsValue) : bool :=
  match v with
  | Undefined => true
  | _ => false
  end.

(** [getOrInsert]; [randomHex] is [randomBytes(20).toString("hex")]. The
    lookup by address has no contract and no token id, so it does not throw. *)
Definition getOrInsert (cfg : Config) (self : t) (randomHex : string) (source : string)
    : GetOrInsert :=
  if isAddress source then
    match getByAddress cfg self source None None false with
    | Ok sourceEntity =>
        if falsy sourceEntity then Creates source source else Returns sourceEntity
    | Err message => Throws message
    end
  else
    let sourceEntity := getByName self source false in
    if falsy sourceEntity then Creates source ("0x" +:+ randomHex) else Returns sourceEntity.

End Sources.

(** * Block bookkeeping *)

Module Blocks.

Record Block : Set := { hash : string; number : Z }.

Section Blocks.

(** [toBuffer] and [fromBuffer], from common/utils. *)
Context (toBuffer fromBuffer : string → string).

(** Modelled from the spec: the blocks table, which is declared outside this
    file, is keyed by (hash, number). A row is the pair of the bytes of the
    hash and the number; [idb] and [redb] are taken to see the same rows. *)
Definition saveBlock (tbl : gset (string * Z)) (block : Block) : gset (string * Z) * Block :=
  ({[ (toBuffer (hash block), number block) ]} ∪ tbl, block).

Definition deleteBlock (tbl : gset (string * Z)) (number : Z) (hash : string)
    : gset (string * Z) :=
  tbl ∖ {[ (toBuffer hash, number) ]}.

(** The rows come in no stated order; they are taken in the order of
    [elements]. *)
Definition getBlocks (tbl : gset (string * Z)) (number : Z) : list Block :=
  (λ row : string * Z, {| hash := fromBuffer row.1; number := number |})
  <$> elements (filter (λ row : string * Z, row.2 = number) tbl).

End Blocks.

End Blocks.

(** * Sample data *)

Definition sampleEnv : Env :=
  {| Weth := "0xweth";
     Eth := "0xeeee";
     Exchange := "0xexchange";
     currentTime := 1000;
     newOrder := λ o, if bool_decide (Sdk.maker o = "") then Err "Invalid params" else Ok o;
     hash := λ o, String.concat "/" [Sdk.maker o; Sdk.nonce o; Sdk.nft o; Sdk.nftId o];
     toBuffer := λ s, s;
     getContractKind := λ c,
       Ok (if bool_decide (c = "0xmulti") then Some erc1155
           else if bool_decide (c = "0xnft") then Some erc721 else None);
     checkValidity := λ _, true;
     checkSignature := λ _, true;
     offChainCheck := λ o,
       if bool_decide (Sdk.maker o = "0xbob") then Err "no-balance"
       else if bool_decide (Sdk.maker o = "0xcarol") then Err "no-approval"
       else if bool_decide (Sdk.maker o = "0xdave") then Err "no-balance-no-approval"
       else if bool_decide (Sdk.maker o = "0xerin") then Err "cancelled"
       else Ok ();
     generateSchemaHash := λ _, "0xschema";
     singleTokenSave := λ r, Ok [ts_id r];
     (* a table whose column order_kind follows kind *)
     order_kind := λ r, Some (DbOrder.kind r) |}.

Definition noMetadata : OrderMetadata :=
  {| schemaHash := None; schema := None; source := None |}.

Definition emptyWorld : World := {| orders := ∅; calls := [] |}.

Definition royalty (amount : N) : Sdk.Fee :=
  {| Sdk.recipient := "0xroyalty"; Sdk.amount := amount; Sdk.feeData := "0x" |}.

(** An open sell order for one token of the ERC721 contract, valid until
    2000. *)
Definition erc721Listing (maker nonce nftId erc20Token : string) (erc20TokenAmount : N)
    (fees : list Sdk.Fee) : OrderInfo :=
  {| orderParams :=
       {| Sdk.kind := Some "erc721-single-token";
          Sdk.direction := Sdk.SELL;
          Sdk.maker := maker;
          Sdk.taker := AddressZero;
          Sdk.expiry := 2000;
          Sdk.nonce := nonce;
          Sdk.erc20Token := erc20Token;
          Sdk.erc20TokenAmount := erc20TokenAmount;
          Sdk.fees := fees;
          Sdk.nft := "0xnft";
          Sdk.nftId := nftId;
          Sdk.nftAmount := None |};
     metadata := noMetadata |}.

(** A listing with nonce 7: 90 to the maker, 10 of fees on top, payment
    asked in the native placeholder token. *)
Definition listing (maker nftId : string) : OrderInfo :=
  erc721Listing maker "7" nftId "0xeeee" 90 [royalty 10].

(** A listing that asks for nothing and declares no fee. *)
Definition freeListing : OrderInfo :=
  erc721Listing "0xalice" "8" "3" "0xeeee" 0 [].

(** A listing like [listing], asking to be paid in another token. *)
Definition daiListing : OrderInfo :=
  erc721Listing "0xalice" "9" "4" "0xdai" 90 [royalty 10].

(** A listing of [q] units of a token of the ERC1155 contract: 90 to the
    maker and 10 of fees for the lot. *)
Definition multiListing (maker nonce nftId : string) (q : N) : OrderInfo :=
  {| orderParams :=
       {| Sdk.kind := Some "erc1155-single-token";
          Sdk.direction := Sdk.SELL;
          Sdk.maker := maker;
          Sdk.taker := AddressZero;
          Sdk.expiry := 2000;
          Sdk.nonce := nonce;
          Sdk.erc20Token := "0xeeee";
          Sdk.erc20TokenAmount := 90;
          Sdk.fees := [royalty 10];
          Sdk.nft := "0xmulti";
          Sdk.nftId := nftId;
          Sdk.nftAmount := Some q |};
     metadata := noMetadata |}.

Definition emptySources : Sources.t :=
  {| Sources.sources := ∅; Sources.sourcesByNames := ∅; Sources.sourcesByAddress := ∅ |}.

Definition sampleSource (id : Z) (name address : string) : Sources.SourcesEntity :=
  {| Sources.id := id;
     Sources.address := address;
     Sources.name := name;
     Sources.metadata :=
       {| Sources.icon := None; Sources.tokenUrlMainnet := None;
          Sources.tokenUrlRinkeby := None; Sources.tokenUrlFantom := None;
          Sources.url := None |} |}.

(** A table in which the first row and the last one have the same id and
    the same name up to letter case, and no cache. *)
Definition sampleStore : Sources.Store :=
  {| Sources.cache := None;
     Sources.table := [sampleSource 1 "OpenSea" "0xAbC";
                       sampleSource 2 "Rarible" "0xdef";
                       sampleSource 1 "opensea" "0x123"] |}.

Definition sampleConfig : Sources.Config :=
  {| Sources.chainId := 250; Sources.replace := λ s _ _, s |}.

(** * Properties *)

(** ** The flow monad *)

Lemma bind_Next_inv {A B} (m : flow A) (f : A → flow B) (b : B) :
  m ≫= f = Next b → ∃ a, m = Next a ∧ f a = Next b.
Proof. destruct m as [a| |]; simpl; [eauto | discriminate..]. Qed.

Lemma oneOrNone_None {A} (rows : list A) : oneOrNone rows = Next None ↔ rows = [].
Proof. destruct rows as [|r [|r' rows]]; simpl; split; congruence. Qed.

Lemma oneOrNone_Return {A} (rows : list A) id st : oneOrNone rows ≠ Return id st.
Proof. by destruct rows as [|r [|r' rows]]. Qed.

Lemma Bn_div_Next a b q : Bn.div a b = Next q ↔ b ≠ 0 ∧ q = a ÷ b.
Proof.
  unfold Bn.div. destruct (Z.eqb_spec b 0); split; intros H;
    try discriminate; [tauto | split; congruence | destruct H; congruence].
Qed.

Lemma Bn_div_nonzero a b : b ≠ 0 → Bn.div a b = Next (a ÷ b).
Proof. intros Hb. by apply Bn_div_Next. Qed.

(** ** The early checks *)

(** An order passes the early checks exactly when every one of them holds. *)
Lemma earlyChecks_Next e tbl oi order id kind :
  earlyChecks e tbl oi = Next (order, id, kind) ↔
    newOrder e (orderParams oi) = Ok order
    ∧ id = hash e order
    ∧ tbl !! id = None
    ∧ getContractKind e (Sdk.nft order) = Ok (Some kind)
    ∧ select (nonceQuery e kind order) tbl = []
    ∧ currentTime e < Sdk.expiry order
    ∧ (Sdk.direction order = Sdk.BUY →
         Sdk.erc20Token order = Weth e ∧ Sdk.erc20Token order = Eth e)
    ∧ Sdk.taker order = AddressZero
    ∧ checkValidity e order = true
    ∧ checkSignature e order = true.
Proof.
  unfold earlyChecks. split.
  - intros H.
    destruct (newOrder e (orderParams oi)) as [o|] eqn:Ho; simpl in H; [|discriminate].
    destruct (tbl !! hash e o) eqn:Hid; simpl in H; [discriminate|].
    destruct (getContractKind e (Sdk.nft o)) as [[k|]|] eqn:Hk; simpl in H; try discriminate.
    destruct (oneOrNone (select (nonceQuery e k o) tbl)) as [[r|]| |] eqn:Hn;
      simpl in H; try discriminate.
    apply oneOrNone_None in Hn.
    destruct (Sdk.expiry o <=? currentTime e) eqn:Ht; [discriminate|].
    destruct (bool_decide (Sdk.direction o = Sdk.BUY)
              && bool_decide (Sdk.erc20Token o ≠ Weth e)) eqn:Hw; [discriminate|].
    destruct (bool_decide (Sdk.direction o = Sdk.BUY)
              && bool_decide (Sdk.erc20Token o ≠ Eth e)) eqn:He; [discriminate|].
    destruct (bool_decide (Sdk.taker o ≠ AddressZero)) eqn:Htk; [discriminate|].
    destruct (checkValidity e o) eqn:Hv; [|discriminate].
    destruct (checkSignature e o) eqn:Hs; [|discriminate].
    simpl in H. simplify_eq.
    apply Z.leb_gt in Ht. apply bool_decide_eq_false in Htk.
    repeat split; try done.
    + apply andb_false_iff in Hw as [Hw|Hw]; apply bool_decide_eq_false in Hw; [done|].
      by destruct (decide (Sdk.erc20Token order = Weth e)).
    + apply andb_false_iff in He as [He|He]; apply bool_decide_eq_false in He; [done|].
      by destruct (decide (Sdk.erc20Token order = Eth e)).
    + by destruct (decide (Sdk.taker order = AddressZero)).
  - intros (Ho & -> & Hid & Hk & Hn & Ht & Hpay & Htk & Hv & Hs).
    rewrite Ho. simpl. rewrite Hid. simpl. rewrite Hk. simpl. rewrite Hn. simpl.
    rewrite (proj2 (Z.leb_gt _ _) Ht).
    assert (bool_decide (Sdk.direction order = Sdk.BUY)
            && bool_decide (Sdk.erc20Token order ≠ Weth e) = false) as ->.
    { apply andb_false_iff. destruct (decide (Sdk.direction order = Sdk.BUY)) as [Hb|Hb].
      - right. apply bool_decide_eq_false. intros HH. apply HH, Hpay, Hb.
      - left. by apply bool_decide_eq_false. }
    assert (bool_decide (Sdk.direction order = Sdk.BUY)
            && bool_decide (Sdk.erc20Token order ≠ Eth e) = false) as ->.
    { apply andb_false_iff. destruct (decide (Sdk.direction order = Sdk.BUY)) as [Hb|Hb].
      - right. apply bool_decide_eq_false. intros HH. apply HH, Hpay, Hb.
      - left. by apply bool_decide_eq_false. }
    rewrite (bool_decide_eq_false_2 (Sdk.taker order ≠ AddressZero)) by (intros HH; exact (HH Htk)).
    by rewrite Hv, Hs.
Qed.

(** ** The accumulators *)

Lemma handleOrder_results e tbl relay acc oi :
  results (handleOrder e tbl relay acc oi) = results acc ++ outcomeOf e tbl oi.
Proof.
  unfold handleOrder, outcomeOf.
  destruct (handleOrderBody e tbl oi) as [[row aw]| |]; simpl; by rewrite ?app_nil_r.
Qed.

Lemma handleOrder_orderValues e tbl relay acc oi :
  orderValues (handleOrder e tbl relay acc oi) = orderValues acc ++ (acceptedOf e tbl oi).*1.
Proof.
  unfold handleOrder, acceptedOf.
  destruct (handleOrderBody e tbl oi) as [[row aw]| |]; simpl; by rewrite ?app_nil_r.
Qed.

Lemma handleOrder_arweaveData e tbl relay acc oi :
  arweaveData (handleOrder e tbl relay acc oi)
  = arweaveData acc ++ (if relay then (acceptedOf e tbl oi).*2 else []).
Proof.
  unfold handleOrder, acceptedOf.
  destruct (handleOrderBody e tbl oi) as [[row aw]| |], relay; simpl; by rewrite ?app_nil_r.
Qed.

Lemma batch_results e tbl relay l acc :
  results (foldl (handleOrder e tbl relay) acc l) = results acc ++ (l ≫= outcomeOf e tbl).
Proof.
  revert acc. induction l as [|oi l IH]; intros acc; simpl.
  - by rewrite app_nil_r.
  - by rewrite IH, handleOrder_results, <-app_assoc.
Qed.

Lemma batch_orderValues e tbl relay l acc :
  orderValues (foldl (handleOrder e tbl relay) acc l)
  = orderValues acc ++ (l ≫= λ oi, (acceptedOf e tbl oi).*1).
Proof.
  revert acc. induction l as [|oi l IH]; intros acc; simpl.
  - by rewrite app_nil_r.
  - by rewrite IH, handleOrder_orderValues, <-app_assoc.
Qed.

Lemma batch_arweaveData e tbl relay l acc :
  arweaveData (foldl (handleOrder e tbl relay) acc l)
  = arweaveData acc ++ (l ≫= λ oi, if relay then (acceptedOf e tbl oi).*2 else []).
Proof.
  revert acc. induction l as [|oi l IH]; intros acc; simpl.
  - by rewrite app_nil_r.
  - by rewrite IH, handleOrder_arweaveData, <-app_assoc.
Qed.

(** A handler whose body throws leaves no mark on the batch. *)
Lemma batch_skip_thrown e tbl relay before oi after :
  handleOrderBody e tbl oi = Throw →
  foldl (handleOrder e tbl relay) emptyAcc (before ++ oi :: after)
  = foldl (handleOrder e tbl relay) emptyAcc (before ++ after).
Proof.
  intros Hthrow. rewrite !foldl_app. simpl. unfold handleOrder at 2. by rewrite Hthrow.
Qed.

(** ** The orders table *)

Lemma insert_keeps_known (rows : list DbOrder.t) (tbl : gmap string DbOrder.t) k r :
  tbl !! k = Some r → insertOnConflictDoNothing tbl rows !! k = Some r.
Proof.
  revert tbl. induction rows as [|x rows IH]; intros tbl Hk; simpl; [done|].
  apply IH. destruct (tbl !! DbOrder.id x) eqn:Hx; [done|].
  rewrite lookup_insert_ne; [done|]. intros <-. congruence.
Qed.

Lemma insert_all_known (rows : list DbOrder.t) (tbl : gmap string DbOrder.t) :
  Forall (λ x, is_Some (tbl !! DbOrder.id x)) rows → insertOnConflictDoNothing tbl rows = tbl.
Proof.
  induction 1 as [|x rows [y Hy] _ IH]; simpl; [done|]. by rewrite Hy.
Qed.

Lemma insert_covers (rows : list DbOrder.t) (tbl : gmap string DbOrder.t) x :
  x ∈ rows → is_Some (insertOnConflictDoNothing tbl rows !! DbOrder.id x).
Proof.
  revert tbl. induction rows as [|y rows IH]; intros tbl Hx; [by apply elem_of_nil in Hx|].
  apply elem_of_cons in Hx as [->|Hx]; simpl; [|by apply IH].
  destruct (tbl !! DbOrder.id y) as [r|] eqn:Hy.
  - exists r. by apply insert_keeps_known.
  - exists y. apply insert_keeps_known. by rewrite lookup_insert_eq.
Qed.

Lemma insert_grows (rows : list DbOrder.t) (tbl : gmap string DbOrder.t) :
  tbl ⊆ insertOnConflictDoNothing tbl rows.
Proof.
  apply map_subseteq_spec. intros k r. apply insert_keeps_known.
Qed.

Lemma insert_size (rows : list DbOrder.t) (tbl : gmap string DbOrder.t) :
  (size (insertOnConflictDoNothing tbl rows) ≤ size tbl + length rows)%nat.
Proof.
  revert tbl. induction rows as [|x rows IH]; intros tbl; simpl; [lia|].
  destruct (tbl !! DbOrder.id x) eqn:Hx.
  - specialize (IH tbl). lia.
  - specialize (IH (<[DbOrder.id x:=x]> tbl)).
    rewrite map_size_insert_None in IH by done. lia.
Qed.

Lemma select_nil_mono cond (tbl tbl' : gmap string DbOrder.t) :
  tbl ⊆ tbl' → select cond tbl' = [] → select cond tbl = [].
Proof.
  unfold select. intros Hsub Hnil.
  destruct (filter _ (map_to_list tbl).*2) as [|r rs] eqn:Hf; [done|].
  assert (r ∈ filter (λ r, cond r = true) (map_to_list tbl).*2) as Hr
    by (rewrite Hf; apply elem_of_cons; auto).
  apply list_elem_of_filter in Hr as [Hc Hr].
  apply list_elem_of_fmap in Hr as ([k r'] & -> & Hr).
  apply elem_of_map_to_list in Hr.
  assert (r' ∈ filter (λ r, cond r = true) (map_to_list tbl').*2) as Hr'.
  { apply list_elem_of_filter. split; [done|].
    apply list_elem_of_fmap. exists (k, r'). split; [done|].
    apply elem_of_map_to_list. by eapply lookup_weaken. }
  rewrite Hnil in Hr'. by apply elem_of_nil in Hr'.
Qed.

(** ** Statuses *)

Lemma bind_Return_inv {A B} (m : flow A) (f : A → flow B) id st :
  m ≫= f = Return id st → m = Return id st ∨ ∃ a, m = Next a ∧ f a = Return id st.
Proof. destruct m as [a| |]; simpl; [eauto | intros [= -> ->]; eauto | discriminate]. Qed.

Lemma Bn_div_Return a b id st : Bn.div a b ≠ Return id st.
Proof. unfold Bn.div. by destruct (b =? 0). Qed.

Lemma Bn_toNumber_Return a id st : Bn.toNumber a ≠ Return id st.
Proof. unfold Bn.toNumber. by destruct (Z.abs a <=? 2 ^ 53 - 1). Qed.

Lemma Bn_toNumber_Next a n : Bn.toNumber a = Next n → n = a.
Proof. unfold Bn.toNumber. destruct (Z.abs a <=? 2 ^ 53 - 1); congruence. Qed.

Lemma mapM_Return {A B} (f : A → flow B) (l : list A) id st :
  (∀ x, f x ≠ Return id st) → mapM f l ≠ Return id st.
Proof.
  intros Hf. induction l as [|x l IH]; simpl; [done|].
  intros H. apply bind_Return_inv in H as [H|(y & _ & H)]; [by apply Hf in H|].
  apply bind_Return_inv in H as [H|(ys & _ & H)]; [done | discriminate].
Qed.

Lemma earlyChecks_Return e tbl oi id st :
  earlyChecks e tbl oi = Return id st → st ∈ rejections.
Proof.
  unfold earlyChecks, rejections. intros H.
  destruct (newOrder e (orderParams oi)) as [o|]; simpl in H; [|discriminate].
  destruct (tbl !! hash e o); simpl in H; [simplify_eq; set_solver|].
  destruct (getContractKind e (Sdk.nft o)) as [[k|]|]; simpl in H;
    [|simplify_eq; set_solver|discriminate].
  destruct (oneOrNone (select (nonceQuery e k o) tbl)) as [[r|]|?|] eqn:Hn; simpl in H;
    [simplify_eq; set_solver| |by apply oneOrNone_Return in Hn|discriminate].
  repeat case_match; simplify_eq; set_solver.
Qed.

Lemma fillabilityCheck_Return e order id id' st :
  fillabilityCheck e order id = Return id' st → id' = id ∧ st = "not-fillable".
Proof.
  unfold fillabilityCheck. intros H.
  repeat case_match; by simplify_eq.
Qed.

Lemma resolveTokenSet_Return e order md id id' st :
  resolveTokenSet e order md id = Return id' st → id' = id ∧ st = "invalid-token-set".
Proof.
  unfold resolveTokenSet. intros H.
  apply bind_Return_inv in H as [H|(ts & _ & H)].
  - destruct (Sdk.kind order) as [k|]; [|discriminate].
    destruct (bool_decide (k = "erc721-single-token") || _); [|discriminate].
    apply bind_Return_inv in H as [H|(sets & _ & H)].
    + by destruct (singleTokenSave e _).
    + by destruct sets.
  - repeat case_match; by simplify_eq.
Qed.

Lemma priceValueFee_Return order id st : priceValueFee order ≠ Return id st.
Proof.
  unfold priceValueFee. intros H.
  apply bind_Return_inv in H as [H|(pv & _ & H)].
  - destruct (startsWithErc1155 order); [|discriminate].
    destruct (Sdk.nftAmount order) as [q|]; [|discriminate].
    apply bind_Return_inv in H as [H|(p & _ & H)]; [by apply Bn_div_Return in H|].
    apply bind_Return_inv in H as [H|(v & _ & H)]; [by apply Bn_div_Return in H|done].
  - apply bind_Return_inv in H as [H|(b & _ & H)]; [by apply Bn_div_Return in H|done].
Qed.

Lemma pricing_Return order id id' st :
  pricing order id = Return id' st → id' = id ∧ st = "fees-too-high".
Proof.
  unfold pricing. intros H.
  apply bind_Return_inv in H as [H|(pvf & _ & H)]; [by apply priceValueFee_Return in H|].
  destruct (10000 <? pvf.2); by simplify_eq.
Qed.

Lemma buildRow_Return e order md id kind status ts pvf id' st :
  buildRow e order md id kind status ts pvf ≠ Return id' st.
Proof.
  unfold buildRow. destruct status, ts, pvf as [[p v] b]. intros H.
  apply bind_Return_inv in H as [H|(fb & _ & H)].
  - revert H. apply mapM_Return. intros f H.
    apply bind_Return_inv in H as [H|(q & _ & H)]; [by apply Bn_div_Return in H|].
    apply bind_Return_inv in H as [H|(n & _ & H)]; [by apply Bn_toNumber_Return in H|done].
  - apply bind_Return_inv in H as [H|(n & _ & H)]; [by apply Bn_toNumber_Return in H|done].
Qed.

(** After the fillability check only two statuses are left. *)
Lemma resolvePriceAndBuild_Return e order md id kind status id' st :
  resolvePriceAndBuild e order md id kind status = Return id' st →
  id' = id ∧ (st = "invalid-token-set" ∨ st = "fees-too-high").
Proof.
  unfold resolvePriceAndBuild. intros H.
  apply bind_Return_inv in H as [H|(ts & _ & H)];
    [apply resolveTokenSet_Return in H as [-> ->]; auto|].
  apply bind_Return_inv in H as [H|(pvf & _ & H)];
    [apply pricing_Return in H as [-> ->]; auto|by apply buildRow_Return in H].
Qed.

(** Past the early checks, the statuses left are those of the fillability
    check, the token set and the fee rate. *)
Lemma afterEarlyChecks_Return e order md id kind id' st :
  (status ← fillabilityCheck e order id; resolvePriceAndBuild e order md id kind status)
    = Return id' st →
  id' = id ∧ st ∈ ["not-fillable"; "invalid-token-set"; "fees-too-high"].
Proof.
  intros H. apply bind_Return_inv in H as [H|(status & _ & H)].
  - apply fillabilityCheck_Return in H as [-> ->]. split; [done|set_solver].
  - apply resolvePriceAndBuild_Return in H as [-> [->| ->]]; (split; [done|set_solver]).
Qed.

(** Inverts [H : handleOrderBody _ _ _ = Return _ _] into the case of the
    early checks, left as [H], and the case of the later stages, closed when
    the status is none of theirs. *)
Ltac invert_returned H :=
  unfold handleOrderBody in H;
  apply bind_Return_inv in H as [H|([[? ?] ?] & _ & H)];
  [|apply afterEarlyChecks_Return in H as [_ H];
    repeat (apply elem_of_cons in H as [H|H]; [try discriminate|]);
    try (by apply elem_of_nil in H)].

Lemma handleOrderBody_Return e tbl oi id st :
  handleOrderBody e tbl oi = Return id st → st ∈ rejections.
Proof.
  intros H. invert_returned H; [by eapply earlyChecks_Return|..];
    subst st; unfold rejections; set_solver.
Qed.

Lemma success_not_rejection : "success" ∉ rejections.
Proof.
  unfold rejections. intros H.
  repeat (apply elem_of_cons in H as [H|H]; [discriminate|]).
  by apply elem_of_nil in H.
Qed.

(** ** Accepted orders *)

Lemma buildRow_Next e order md id kind status ts pvf row aw :
  buildRow e order md id kind status ts pvf = Next (row, aw) →
  DbOrder.id row = id
  ∧ DbOrder.kind row = "opendao-" +:+ kindName kind
  ∧ DbOrder.fillability_status row = status.1
  ∧ DbOrder.approval_status row = status.2
  ∧ DbOrder.price row = pvf.1.1
  ∧ DbOrder.value row = pvf.1.2
  ∧ DbOrder.fee_bps row = pvf.2
  ∧ DbOrder.raw_data row = order.
Proof.
  unfold buildRow. destruct status as [fs aps], ts as [t sh], pvf as [[p v] b]. intros H.
  apply bind_Next_inv in H as (fb & _ & H).
  apply bind_Next_inv in H as (n & Hn & H).
  apply Bn_toNumber_Next in Hn as ->. by simplify_eq.
Qed.

(** An order is accepted exactly when every stage lets it through. *)
Lemma handleOrderBody_Next e tbl oi ra :
  handleOrderBody e tbl oi = Next ra ↔
  ∃ order id kind status ts pvf,
    earlyChecks e tbl oi = Next (order, id, kind)
    ∧ fillabilityCheck e order id = Next status
    ∧ resolveTokenSet e order (metadata oi) id = Next ts
    ∧ pricing order id = Next pvf
    ∧ buildRow e order (metadata oi) id kind status ts pvf = Next ra.
Proof.
  unfold handleOrderBody, resolvePriceAndBuild. split.
  - intros H.
    apply bind_Next_inv in H as ([[order id] kind] & H1 & H).
    apply bind_Next_inv in H as (status & H2 & H).
    apply bind_Next_inv in H as (ts & H3 & H).
    apply bind_Next_inv in H as (pvf & H4 & H).
    by exists order, id, kind, status, ts, pvf.
  - intros (order & id & kind & status & ts & pvf & H1 & H2 & H3 & H4 & H5).
    rewrite H1. simpl. rewrite H2. simpl. rewrite H3. simpl. by rewrite H4.
Qed.

(** The identity of an accepted row is the hash of the order, and it was
    not in the table. *)
Lemma accepted_identity e tbl oi row aw :
  handleOrderBody e tbl oi = Next (row, aw) →
  ∃ order, newOrder e (orderParams oi) = Ok order
           ∧ DbOrder.id row = hash e order
           ∧ tbl !! hash e order = None.
Proof.
  intros H. apply handleOrderBody_Next in H
    as (order & id & kind & status & ts & pvf & H1 & _ & _ & _ & H5).
  apply earlyChecks_Next in H1 as (Ho & -> & Hid & _).
  apply buildRow_Next in H5 as (Hrow & _).
  by exists order.
Qed.

(** An identity already in the table stops the handler at the first check. *)
Lemma known_identity e tbl oi order :
  newOrder e (orderParams oi) = Ok order →
  is_Some (tbl !! hash e order) →
  handleOrderBody e tbl oi = Return (hash e order) "already-exists".
Proof.
  intros Ho [r Hr]. unfold handleOrderBody, earlyChecks.
  rewrite Ho. simpl. by rewrite Hr.
Qed.

(** Acceptance is antitone in the table and in the clock: what is accepted
    against a larger table at a later time is accepted, with the same row,
    against the smaller table at the earlier time. *)
Lemma accepted_antitone e t (tbl tbl' : gmap string DbOrder.t) oi ra :
  tbl ⊆ tbl' → currentTime e ≤ t →
  handleOrderBody (atTime e t) tbl' oi = Next ra →
  handleOrderBody e tbl oi = Next ra.
Proof.
  intros Hsub Ht H. apply handleOrderBody_Next in H
    as (order & id & kind & status & ts & pvf & H1 & H2 & H3 & H4 & H5).
  apply handleOrderBody_Next. exists order, id, kind, status, ts, pvf.
  split; [|done].
  apply earlyChecks_Next in H1 as (Ho & -> & Hid & Hk & Hn & Hexp & Hrest).
  apply earlyChecks_Next. simpl in *. repeat split; try done.
  - by eapply lookup_weaken_None.
  - by eapply select_nil_mono.
  - lia.
  - by apply Hrest.
  - by apply Hrest.
  - by apply Hrest.
  - by apply Hrest.
  - by apply Hrest.
Qed.

(** ** The batch *)

Lemma save_results e w l relay :
  (save e w l relay).2 = l ≫= outcomeOf e (orders w).
Proof. unfold save. simpl. by rewrite batch_results. Qed.

Lemma save_orders e w l relay :
  orders (save e w l relay).1
  = insertOnConflictDoNothing (orders w) (l ≫= λ oi, (acceptedOf e (orders w) oi).*1).
Proof.
  unfold save. simpl. rewrite batch_orderValues. simpl.
  by destruct (l ≫= _).
Qed.

Lemma save_nothing_accepted e w l relay :
  Forall (λ oi, acceptedOf e (orders w) oi = []) l → (save e w l relay).1 = w.
Proof.
  intros Hl. unfold save. rewrite batch_orderValues.
  assert (l ≫= (λ oi, (acceptedOf e (orders w) oi).*1) = []) as ->; [|done].
  induction Hl as [|oi l Hoi _ IH]; [done|]. by rewrite bind_cons, Hoi, IH.
Qed.

(** Replaying a batch against the table it produced accepts nothing. *)
Lemma replay_accepts_nothing e t w l relay oi :
  currentTime e ≤ t → oi ∈ l →
  acceptedOf (atTime e t) (orders (save e w l relay).1) oi = [].
Proof.
  intros Ht Hoi. unfold acceptedOf.
  destruct (handleOrderBody _ _ oi) as [[row aw]| |] eqn:Hb; [exfalso|done..].
  pose proof Hb as Hb0.
  apply accepted_antitone with (tbl := orders w) in Hb0;
    [|rewrite save_orders; apply insert_grows|done].
  apply accepted_identity in Hb as (order & Ho & Hid & Hnone).
  change (hash (atTime e t) order) with (hash e order) in Hid, Hnone.
  assert (is_Some (orders (save e w l relay).1 !! DbOrder.id row)) as [r Hr].
  { rewrite save_orders. apply insert_covers.
    apply list_elem_of_bind. exists oi. split; [|done].
    unfold acceptedOf. rewrite Hb0. simpl. by apply list_elem_of_singleton. }
  rewrite Hid, Hnone in Hr. discriminate.
Qed.

(** ** C2: idempotent ingestion *)

Lemma single_success e w oi relay id :
  (save e w [oi] relay).2 = [{| SaveResult.id := id; SaveResult.status := "success" |}] →
  ∃ row aw, handleOrderBody e (orders w) oi = Next (row, aw) ∧ DbOrder.id row = id.
Proof.
  rewrite save_results, bind_cons, app_nil_r. unfold outcomeOf.
  destruct (handleOrderBody e (orders w) oi) as [[row aw]|id' st|] eqn:Hb; simpl;
    intros H; simplify_eq.
  - by exists row, aw.
  - apply handleOrderBody_Return in Hb. by apply success_not_rejection in Hb.
Qed.

Lemma save_single_rejected e w oi relay id st :
  handleOrderBody e (orders w) oi = Return id st →
  save e w [oi] relay = (w, [{| SaveResult.id := id; SaveResult.status := st |}]).
Proof. intros Hb. unfold save. simpl. unfold handleOrder. by rewrite Hb. Qed.

Lemma replay_unchanged e w batch relay t :
  currentTime e ≤ t →
  (save (atTime e t) (save e w batch relay).1 batch relay).1 = (save e w batch relay).1.
Proof.
  intros Ht. apply save_nothing_accepted, Forall_forall.
  intros oi Hoi. by apply replay_accepts_nothing.
Qed.

(** C2. A second ingestion of an order whose first ingestion returned
    [success] returns [already-exists] and changes nothing, whatever the
    clock and the collaborators answer by then, as long as the order still
    hashes to the same identity; the two attempts add at most one row;
    the bulk insert leaves every row it finds untouched, and the whole
    table when every identity it is given is known; and replaying a
    batch any number of times, at any later times, leaves the state that
    the first run produced. *)
Theorem ingestion_idempotent (e e' : Env) (w : World) (oi : OrderInfo)
    (relay relay' : bool) (id : string) (batch : list OrderInfo) (times : list Z) :
  (save e w [oi] relay).2 = [{| SaveResult.id := id; SaveResult.status := "success" |}] →
  newOrder e' (orderParams oi) = newOrder e (orderParams oi) →
  (∀ o, hash e' o = hash e o) →
  Forall (λ t, currentTime e ≤ t) times →
  let w1 := (save e w [oi] relay).1 in
  let wb := (save e w batch relay).1 in
  save e' w1 [oi] relay'
    = (w1, [{| SaveResult.id := id; SaveResult.status := "already-exists" |}])
  ∧ (size (orders w1) ≤ size (orders w) + 1)%nat
  ∧ (∀ rows k r, orders w !! k = Some r →
       insertOnConflictDoNothing (orders w) rows !! k = Some r)
  ∧ (∀ rows, Forall (λ x, is_Some (orders w !! DbOrder.id x)) rows →
       insertOnConflictDoNothing (orders w) rows = orders w)
  ∧ foldl (λ w' t, (save (atTime e t) w' batch relay).1) wb times = wb.
Proof.
  intros Hfirst Hnew Hhash Htimes w1 wb.
  apply single_success in Hfirst as (row & aw & Hb & Hid).
  split; [|split; [|split; [|split]]].
  - apply accepted_identity in Hb as Hacc. destruct Hacc as (order & Ho & Hrow & _).
    assert (id = hash e' order) as -> by (rewrite Hhash; congruence).
    apply save_single_rejected, known_identity; [congruence|].
    subst w1. rewrite save_orders, bind_cons, app_nil_r. unfold acceptedOf.
    rewrite Hb, Hhash, <-Hrow. by apply (insert_covers [row]), list_elem_of_singleton.
  - subst w1. rewrite save_orders, bind_cons, app_nil_r.
    etrans; [apply insert_size|]. unfold acceptedOf. rewrite Hb. simpl. lia.
  - intros rows k r. apply insert_keeps_known.
  - intros rows. apply insert_all_known.
  - subst wb. induction Htimes as [|t times Ht _ IH]; [done|].
    cbn [foldl]. by rewrite replay_unchanged.
Qed.

Lemma ingestion_idempotent_witness :
  let oi := listing "0xalice" "1" in
  let w1 := (save sampleEnv emptyWorld [oi] false).1 in
  let wb := (save sampleEnv emptyWorld [oi; listing "0xbob" "2"] false).1 in
  save (atTime sampleEnv 1500) w1 [oi] true
    = (w1, [{| SaveResult.id := "0xalice/7/0xnft/1"; SaveResult.status := "already-exists" |}])
  ∧ (size (orders w1) ≤ size (orders emptyWorld) + 1)%nat
  ∧ (∀ rows k r, orders emptyWorld !! k = Some r →
       insertOnConflictDoNothing (orders emptyWorld) rows !! k = Some r)
  ∧ (∀ rows, Forall (λ x, is_Some (orders emptyWorld !! DbOrder.id x)) rows →
       insertOnConflictDoNothing (orders emptyWorld) rows = orders emptyWorld)
  ∧ foldl (λ w' t, (save (atTime sampleEnv t) w' [oi; listing "0xbob" "2"] false).1)
      wb [1000; 1200; 5000] = wb.
Proof.
  apply (ingestion_idempotent sampleEnv (atTime sampleEnv 1500) emptyWorld
           (listing "0xalice" "1") false true "0xalice/7/0xnft/1"
           [listing "0xalice" "1"; listing "0xbob" "2"] [1000; 1200; 5000]).
  - vm_compute. reflexivity.
  - reflexivity.
  - reflexivity.
  - repeat constructor; vm_compute; discriminate.
Defined.

(** ** Pricing *)

Lemma getFeeAmount_nonneg order : 0 ≤ Sdk.getFeeAmount order.
Proof.
  unfold Sdk.getFeeAmount. induction (Sdk.fees order) as [|f fs IH]; simpl; lia.
Qed.

Lemma priceValueFee_Next order p v b :
  priceValueFee order = Next (p, v, b) ↔
    (if startsWithErc1155 order
     then ∃ q, Sdk.nftAmount order = Some q ∧ q ≠ 0%N
               ∧ p = (Z.of_N (Sdk.erc20TokenAmount order) + Sdk.getFeeAmount order) ÷ Z.of_N q
               ∧ v = netValue order ÷ Z.of_N q
     else p = Z.of_N (Sdk.erc20TokenAmount order) + Sdk.getFeeAmount order
          ∧ v = netValue order)
    ∧ p ≠ 0
    ∧ b = (Sdk.getFeeAmount order * 10000) ÷ p.
Proof.
  unfold priceValueFee. cbv zeta.
  replace (if bool_decide (side order = "buy")
           then Z.of_N (Sdk.erc20TokenAmount order) + Sdk.getFeeAmount order
                - Sdk.getFeeAmount order
           else Z.of_N (Sdk.erc20TokenAmount order) + Sdk.getFeeAmount order)
    with (netValue order) by (unfold side, netValue; by destruct (Sdk.direction order)).
  destruct (startsWithErc1155 order); [destruct (Sdk.nftAmount order) as [q|]|].
  - split.
    + intros H. apply bind_Next_inv in H as ([p' v'] & H1 & H).
      apply bind_Next_inv in H1 as (p0 & Hp & H1).
      apply bind_Next_inv in H1 as (v0 & Hv & H1).
      apply bind_Next_inv in H as (b0 & Hb & H). simplify_eq/=.
      apply Bn_div_Next in Hp as [Hq ->], Hv as [_ ->], Hb as [Hp ->].
      split; [|done]. exists q. repeat split; [|done..]. lia.
    + intros ((q' & Hq' & Hne & -> & ->) & Hp & ->). simplify_eq.
      rewrite !Bn_div_nonzero by lia. simpl. by rewrite Bn_div_nonzero.
  - split; [intros H; by apply bind_Next_inv in H as (? & ? & _)|].
    by intros ((q' & ? & _) & _).
  - simpl. split.
    + intros H. apply bind_Next_inv in H as (b0 & Hb & H). simplify_eq/=.
      by apply Bn_div_Next in Hb as [Hp ->].
    + intros ([-> ->] & Hp & ->). by rewrite Bn_div_nonzero.
Qed.

(** ** C3: the fee rate of accepted orders *)

Lemma pricing_Next order id p v b :
  pricing order id = Next (p, v, b) ↔ priceValueFee order = Next (p, v, b) ∧ b ≤ 10000.
Proof.
  unfold pricing. split.
  - intros H. apply bind_Next_inv in H as ([[p' v'] b'] & Hpvf & H). simpl in H.
    destruct (Z.ltb_spec 10000 b'); by simplify_eq.
  - intros [-> Hb]. simpl. by rewrite (proj2 (Z.ltb_ge _ _) Hb).
Qed.

Lemma feeBps_nonneg order p v b : priceValueFee order = Next (p, v, b) → 0 < p ∧ 0 ≤ b.
Proof.
  intros H. apply priceValueFee_Next in H as (Hp & Hne & ->).
  pose proof (getFeeAmount_nonneg order) as Hfee.
  assert (0 ≤ p) as Hp0.
  { destruct (startsWithErc1155 order).
    - destruct Hp as (q & _ & Hq & Hp & _). rewrite Hp. apply Z.quot_pos; lia.
    - destruct Hp as [Hp _]. lia. }
  split; [lia|]. apply Z.quot_pos; lia.
Qed.

Lemma accepted_pricing e tbl oi row aw :
  handleOrderBody e tbl oi = Next (row, aw) →
  priceValueFee (DbOrder.raw_data row)
    = Next (DbOrder.price row, DbOrder.value row, DbOrder.fee_bps row)
  ∧ DbOrder.fee_bps row ≤ 10000.
Proof.
  intros H. apply handleOrderBody_Next in H
    as (order & id & kind & status & ts & [[p v] b] & _ & _ & _ & H4 & H5).
  apply buildRow_Next in H5 as (_ & _ & _ & _ & -> & -> & -> & ->). simpl.
  by apply pricing_Next in H4.
Qed.

(** C3. The fee rate stored with an accepted order is the computed one, and
    it lies between 0 and 10000; an order that reaches the pricing stage
    with a computed fee rate above 10000 gets the status [fees-too-high]
    and no row. *)
Theorem fee_rate_bound (e : Env) (tbl : gmap string DbOrder.t) (oi : OrderInfo)
    (relay : bool) (acc : Acc) :
  (∀ row aw, handleOrderBody e tbl oi = Next (row, aw) →
     priceValueFee (DbOrder.raw_data row)
       = Next (DbOrder.price row, DbOrder.value row, DbOrder.fee_bps row)
     ∧ 0 ≤ DbOrder.fee_bps row ≤ 10000)
  ∧ (∀ order id kind status ts p v b,
       earlyChecks e tbl oi = Next (order, id, kind) →
       fillabilityCheck e order id = Next status →
       resolveTokenSet e order (metadata oi) id = Next ts →
       priceValueFee order = Next (p, v, b) →
       10000 < b →
       results (handleOrder e tbl relay acc oi)
         = results acc ++ [{| SaveResult.id := id; SaveResult.status := "fees-too-high" |}]
       ∧ orderValues (handleOrder e tbl relay acc oi) = orderValues acc).
Proof.
  split.
  - intros row aw H. apply accepted_pricing in H as [Hpvf Hb]. split; [done|].
    apply feeBps_nonneg in Hpvf. lia.
  - intros order id kind status ts p v b H1 H2 H3 H4 Hb.
    assert (handleOrderBody e tbl oi = Return id "fees-too-high") as Hbody.
    { unfold handleOrderBody, resolvePriceAndBuild, pricing.
      rewrite H1. simpl. rewrite H2. simpl. rewrite H3. simpl. rewrite H4. simpl.
      by rewrite (proj2 (Z.ltb_lt _ _) Hb). }
    unfold handleOrder. by rewrite Hbody.
Qed.

Lemma fee_rate_bound_witness :
  (∃ row aw, handleOrderBody sampleEnv ∅ (listing "0xalice" "1") = Next (row, aw)
             ∧ DbOrder.fee_bps row = 1000
             ∧ 0 ≤ DbOrder.fee_bps row ≤ 10000)
  ∧ results (handleOrder sampleEnv ∅ false emptyAcc (multiListing "0xalice" "1" "5" 20))
    = [{| SaveResult.id := "0xalice/1/0xmulti/5"; SaveResult.status := "fees-too-high" |}]
  ∧ orderValues (handleOrder sampleEnv ∅ false emptyAcc (multiListing "0xalice" "1" "5" 20)) = [].
Proof.
  split.
  - destruct (handleOrderBody sampleEnv ∅ (listing "0xalice" "1")) as [[row aw]| |] eqn:Hb;
      [|vm_compute in Hb; discriminate..].
    exists row, aw. split; [reflexivity|]. split.
    + vm_compute in Hb. by injection Hb as <- _.
    + by apply (proj1 (fee_rate_bound sampleEnv ∅ (listing "0xalice" "1") false emptyAcc)
                  row aw Hb).
  - eapply (proj2 (fee_rate_bound sampleEnv ∅ (multiListing "0xalice" "1" "5" 20) false emptyAcc)
              _ _ _ _ _ 5 5 20000); [vm_compute; reflexivity..|lia].
Defined.

(** ** C4: price and value *)

(** C4. With [price = erc20TokenAmount + feeAmount], and [value] equal to
    [price - feeAmount] for a buy order and to [price] for a sell order, the
    row of an accepted order holds [price] and [value] themselves when the
    order kind is not an ERC1155 one, and their integer quotients by the
    order's quantity when it is. *)
Theorem price_and_value (e : Env) (tbl : gmap string DbOrder.t) (oi : OrderInfo)
    (row : DbOrder.t) (aw : ArweaveEntry) :
  handleOrderBody e tbl oi = Next (row, aw) →
  let order := DbOrder.raw_data row in
  let feeAmount := Sdk.getFeeAmount order in
  let price := Z.of_N (Sdk.erc20TokenAmount order) + feeAmount in
  let value := match Sdk.direction order with
               | Sdk.BUY => price - feeAmount
               | Sdk.SELL => price
               end in
  if startsWithErc1155 order
  then ∃ q, Sdk.nftAmount order = Some q ∧ (0 < q)%N
            ∧ DbOrder.price row = price / Z.of_N q
            ∧ DbOrder.value row = value / Z.of_N q
  else DbOrder.price row = price ∧ DbOrder.value row = value.
Proof.
  intros H order feeAmount price value.
  apply accepted_pricing in H as [H _].
  apply priceValueFee_Next in H as [H _]. fold order in H.
  pose proof (getFeeAmount_nonneg order) as Hfee.
  assert (netValue order = value) as Hnet by done.
  destruct (startsWithErc1155 order); [|by rewrite <-Hnet].
  destruct H as (q & Hq & Hne & Hp & Hv). exists q.
  assert (0 ≤ value) by (subst value price feeAmount; destruct (Sdk.direction order); lia).
  rewrite Hp, Hv, Hnet, !Z.quot_div_nonneg by lia. repeat split; [done|lia].
Qed.

Lemma price_and_value_witness :
  ∃ row aw, handleOrderBody sampleEnv ∅ (multiListing "0xalice" "2" "5" 3) = Next (row, aw)
            ∧ DbOrder.price row = 33
            ∧ ∃ q, Sdk.nftAmount (DbOrder.raw_data row) = Some q ∧ (0 < q)%N
                   ∧ DbOrder.price row = (90 + 10) / Z.of_N q
                   ∧ DbOrder.value row = (90 + 10) / Z.of_N q.
Proof.
  destruct (handleOrderBody sampleEnv ∅ (multiListing "0xalice" "2" "5" 3))
    as [[row aw]| |] eqn:Hb; [|vm_compute in Hb; discriminate..].
  exists row, aw. split; [reflexivity|].
  pose proof (price_and_value sampleEnv ∅ (multiListing "0xalice" "2" "5" 3) row aw Hb) as H.
  vm_compute in Hb. injection Hb as <- _. split; [reflexivity|exact H].
Defined.

(** ** C5: a computed price of zero *)

Lemma handleOrder_thrown e tbl relay acc oi :
  handleOrderBody e tbl oi = Throw → handleOrder e tbl relay acc oi = acc.
Proof. intros H. unfold handleOrder. by rewrite H. Qed.

Lemma priceValueFee_zero order :
  Z.of_N (Sdk.erc20TokenAmount order) + Sdk.getFeeAmount order = 0 →
  priceValueFee order = Throw.
Proof.
  intros Hzero. destruct (priceValueFee order) as [[[p v] b]|id st|] eqn:H; [exfalso| |done].
  - apply priceValueFee_Next in H as (Hp & Hne & _).
    destruct (startsWithErc1155 order).
    + destruct Hp as (q & _ & Hq & Hp & _). rewrite Hzero in Hp.
      by rewrite Z.quot_0_l in Hp by lia.
    + destruct Hp as [Hp _]. lia.
  - by apply priceValueFee_Return in H.
Qed.

(** C5, as the code has it. An order that reaches the pricing stage with
    [erc20TokenAmount + feeAmount = 0] makes a division throw; the catch-all
    of the handler takes the exception, so the order leaves no result and no
    row, and the accumulators of the batch are as they were. *)
Theorem zero_price_dropped (e : Env) (tbl : gmap string DbOrder.t) (oi : OrderInfo)
    (relay : bool) (acc : Acc) (order : Sdk.BaseOrder) (id : string) (kind : ContractKind)
    (status ts : string * string) :
  earlyChecks e tbl oi = Next (order, id, kind) →
  fillabilityCheck e order id = Next status →
  resolveTokenSet e order (metadata oi) id = Next ts →
  Z.of_N (Sdk.erc20TokenAmount order) + Sdk.getFeeAmount order = 0 →
  handleOrderBody e tbl oi = Throw ∧ handleOrder e tbl relay acc oi = acc.
Proof.
  intros H1 H2 H3 Hzero.
  assert (handleOrderBody e tbl oi = Throw) as Hbody.
  { unfold handleOrderBody, resolvePriceAndBuild, pricing.
    rewrite H1. simpl. rewrite H2. simpl. rewrite H3. simpl.
    by rewrite priceValueFee_zero. }
  split; [done|]. by apply handleOrder_thrown.
Qed.

Lemma zero_price_dropped_witness :
  handleOrderBody sampleEnv ∅ freeListing = Throw
  ∧ handleOrder sampleEnv ∅ false emptyAcc freeListing = emptyAcc.
Proof.
  apply (zero_price_dropped sampleEnv ∅ freeListing false emptyAcc
           (orderParams freeListing) "0xalice/8/0xnft/3" erc721
           ("fillable", "approved") ("token:0xnft:3", "0xschema"));
    vm_compute; reflexivity.
Defined.

(** Against C5 as first stated: the listing that asks for nothing passes
    every check before pricing, its computed price is zero, and the batch
    reports no status for it. *)
Lemma zero_price_gets_no_status :
  earlyChecks sampleEnv ∅ freeListing
    = Next (orderParams freeListing, "0xalice/8/0xnft/3", erc721)
  ∧ Z.of_N (Sdk.erc20TokenAmount (orderParams freeListing))
    + Sdk.getFeeAmount (orderParams freeListing) = 0
  ∧ ¬ ∃ st, {| SaveResult.id := "0xalice/8/0xnft/3"; SaveResult.status := st |}
            ∈ (save sampleEnv emptyWorld [freeListing] false).2.
Proof.
  split; [vm_compute; reflexivity|]. split; [reflexivity|].
  intros [st Hst]. vm_compute in Hst. by apply elem_of_nil in Hst.
Qed.

(** ** C1: the payment token *)

(** A sell order is never turned away for its payment token. *)
Lemma sell_never_unsupported_payment_token e tbl oi order id :
  newOrder e (orderParams oi) = Ok order →
  Sdk.direction order = Sdk.SELL →
  handleOrderBody e tbl oi ≠ Return id "unsupported-payment-token".
Proof.
  intros Ho Hsell H. invert_returned H.
  unfold earlyChecks in H. rewrite Ho in H. simpl in H.
  destruct (tbl !! hash e order); simpl in H; [discriminate|].
  destruct (getContractKind e (Sdk.nft order)) as [[k|]|]; simpl in H; try discriminate.
  destruct (oneOrNone (select (nonceQuery e k order) tbl)) as [[r|]|?|] eqn:Hn; simpl in H;
    [discriminate| |by apply oneOrNone_Return in Hn|discriminate].
  rewrite Hsell in H. simpl in H.
  repeat case_match; discriminate.
Qed.

(** A buy order gets through only with a token that is both the wrapped
    native token and the native placeholder. *)
Lemma buy_needs_both_tokens e tbl oi order id kind :
  earlyChecks e tbl oi = Next (order, id, kind) →
  Sdk.direction order = Sdk.BUY →
  Sdk.erc20Token order = Weth e ∧ Sdk.erc20Token order = Eth e.
Proof. intros H Hbuy. apply earlyChecks_Next in H. by apply H. Qed.

(** C1, at an input where the code departs from it. A sell order that asks
    for a token other than the native placeholder is reported as [success]
    and its row is written. *)
Theorem sell_order_payment_token_unchecked :
  Sdk.direction (orderParams daiListing) = Sdk.SELL
  ∧ Sdk.erc20Token (orderParams daiListing) ≠ Eth sampleEnv
  ∧ (save sampleEnv emptyWorld [daiListing] false).2
    = [{| SaveResult.id := "0xalice/9/0xnft/4"; SaveResult.status := "success" |}]
  ∧ is_Some (orders (save sampleEnv emptyWorld [daiListing] false).1 !! "0xalice/9/0xnft/4").
Proof.
  split; [reflexivity|]. split; [discriminate|]. split; [vm_compute; reflexivity|].
  destruct (orders (save sampleEnv emptyWorld [daiListing] false).1 !! "0xalice/9/0xnft/4")
    as [row|] eqn:Hrow; [by exists row|].
  vm_compute in Hrow. discriminate.
Qed.

(** ** C6: the nonce lookup *)

(** What the nonce lookup decides, for an order that is new and whose
    contract kind is known: no matching row lets the order through, one
    matching row gives [duplicated-nonce], and more than one makes
    [oneOrNone] reject, so the order is dropped without a status. *)
Lemma nonce_lookup e tbl oi order kind :
  newOrder e (orderParams oi) = Ok order →
  tbl !! hash e order = None →
  getContractKind e (Sdk.nft order) = Ok (Some kind) →
  match select (nonceQuery e kind order) tbl with
  | [] => ∀ id, handleOrderBody e tbl oi ≠ Return id "duplicated-nonce"
  | [_] => handleOrderBody e tbl oi = Return (hash e order) "duplicated-nonce"
  | _ => handleOrderBody e tbl oi = Throw
  end.
Proof.
  intros Ho Hid Hk.
  destruct (select (nonceQuery e kind order) tbl) as [|r [|r' rows]] eqn:Hsel.
  - intros id H. invert_returned H.
    unfold earlyChecks in H. rewrite Ho in H. simpl in H. rewrite Hid in H. simpl in H.
    rewrite Hk in H. simpl in H. rewrite Hsel in H. simpl in H.
    repeat case_match; discriminate.
  - unfold handleOrderBody, earlyChecks. rewrite Ho. simpl. rewrite Hid. simpl.
    rewrite Hk. simpl. by rewrite Hsel.
  - unfold handleOrderBody, earlyChecks. rewrite Ho. simpl. rewrite Hid. simpl.
    rewrite Hk. simpl. by rewrite Hsel.
Qed.

(** C6, at an input where the code departs from it, in a table whose
    column order_kind follows kind. A listing of an ERC721
    token is stored with the price 100, its 90 plus its fee of 10. A second
    listing by the same maker, with the same nonce, on the same contract and
    at the same price is looked up with 90, its [erc20TokenAmount]: the
    lookup finds nothing and the second listing is reported as [success]. *)
Theorem nonce_lookup_misses_fee_inclusive_price :
  let w1 := (save sampleEnv emptyWorld [listing "0xalice" "1"] false).1 in
  (∃ row, orders w1 !! "0xalice/7/0xnft/1" = Some row
          ∧ DbOrder.kind row = "opendao-erc721"
          ∧ order_kind sampleEnv row = Some "opendao-erc721"
          ∧ DbOrder.maker row = toBuffer sampleEnv (Sdk.maker (orderParams (listing "0xalice" "2")))
          ∧ DbOrder.nonce row = Sdk.nonce (orderParams (listing "0xalice" "2"))
          ∧ DbOrder.contract row = toBuffer sampleEnv (Sdk.nft (orderParams (listing "0xalice" "2")))
          ∧ priceValueFee (orderParams (listing "0xalice" "2")) = Next (DbOrder.price row, 100, 1000))
  ∧ (save sampleEnv w1 [listing "0xalice" "2"] false).2
    = [{| SaveResult.id := "0xalice/7/0xnft/2"; SaveResult.status := "success" |}].
Proof.
  intros w1. split; [|vm_compute; reflexivity].
  destruct (orders w1 !! "0xalice/7/0xnft/1") as [row|] eqn:Hrow;
    [|vm_compute in Hrow; discriminate].
  exists row. split; [done|].
  vm_compute in Hrow. injection Hrow as <-. repeat split.
Qed.

(** Two ERC1155 listings with one maker and nonce, taken in one batch, are
    both stored; a third one then finds two rows and is dropped without a
    status. *)
Lemma erc1155_nonce_lookup_with_two_rows :
  let w1 := (save sampleEnv emptyWorld
               [multiListing "0xalice" "1" "5" 2; multiListing "0xalice" "1" "6" 2] false).1 in
  size (orders w1) = 2%nat
  ∧ (save sampleEnv w1 [multiListing "0xalice" "1" "7" 2] false).2 = [].
Proof. split; vm_compute; reflexivity. Qed.

(** ** C7: recoverable states of the fillability check *)

Lemma fee_le_total (fees : list Sdk.Fee) (f : Sdk.Fee) :
  f ∈ fees → Z.of_N (Sdk.amount f) ≤ foldr (λ f acc, Z.of_N (Sdk.amount f) + acc) 0 fees.
Proof.
  assert (∀ l : list Sdk.Fee, 0 ≤ foldr (λ f acc, Z.of_N (Sdk.amount f) + acc) 0 l) as Hnn
    by (induction l as [|x l IH]; simpl; lia).
  induction 1 as [f fees|f f' fees Hf IH]; simpl.
  - specialize (Hnn fees). lia.
  - lia.
Qed.

Lemma Bn_toNumber_small a : 0 ≤ a ≤ 10000 → Bn.toNumber a = Next a.
Proof.
  intros Ha. unfold Bn.toNumber.
  destruct (Z.leb_spec (Z.abs a) (2 ^ 53 - 1)) as [|Hlt]; [done|].
  assert (2 ^ 53 - 1 = 9007199254740991) as Hpow by reflexivity. lia.
Qed.

Lemma mapM_Next_intro {A B} (f : A → flow B) (g : A → B) (l : list A) :
  (∀ x, x ∈ l → f x = Next (g x)) → mapM f l = Next (g <$> l).
Proof.
  induction l as [|x l IH]; intros Hf; [done|]. simpl.
  rewrite Hf by apply list_elem_of_here. simpl.
  rewrite IH by (intros y Hy; apply Hf; by apply list_elem_of_further). done.
Qed.

(** With a fee rate within the bound, building the row does not throw. *)
Lemma buildRow_succeeds e order md id kind status ts p v b :
  priceValueFee order = Next (p, v, b) → b ≤ 10000 →
  ∃ row aw, buildRow e order md id kind status ts (p, v, b) = Next (row, aw).
Proof.
  intros Hpvf Hb. pose proof Hpvf as [Hp Hb0]%feeBps_nonneg.
  apply priceValueFee_Next in Hpvf as (_ & _ & Hbps).
  unfold buildRow. destruct status as [fs aps], ts as [t sh].
  rewrite (mapM_Next_intro _
             (λ f, {| DbOrder.fee_kind := "royalty";
                      DbOrder.fee_recipient := Sdk.recipient f;
                      DbOrder.bps := (Z.of_N (Sdk.amount f) * 10000) ÷ p |})).
  - simpl. rewrite Bn_toNumber_small by lia. simpl. eauto.
  - intros f Hf. rewrite Bn_div_nonzero by lia. simpl.
    rewrite Bn_toNumber_small; [done|]. split; [apply Z.quot_pos; lia|].
    etrans; [|exact Hb]. rewrite Hbps. apply Z.quot_le_mono; [lia|].
    apply Z.mul_le_mono_nonneg_r; [lia|]. by apply fee_le_total.
Qed.

(** An order that passed the early checks and whose fillability check left
    it with the given flags is accepted, with these flags, exactly when the
    later stages let it through. *)
Lemma accepted_after_fillability e w oi relay order id kind fs aps :
  earlyChecks e (orders w) oi = Next (order, id, kind) →
  fillabilityCheck e order id = Next (fs, aps) →
  persistedWith e w oi relay id fs aps ↔ laterStagesPass e oi order id.
Proof.
  intros H1 H2. split.
  - intros (row & Hres & _). apply single_success in Hres as (row' & aw & Hb & _).
    apply handleOrderBody_Next in Hb
      as (order' & id' & kind' & status & ts & [[p v] b] & H1' & _ & H3 & H4 & _).
    rewrite H1 in H1'. injection H1' as <- <- <-.
    apply pricing_Next in H4 as [H4 Hb]. by exists ts, p, v, b.
  - intros (ts & p & v & b & H3 & H4 & Hb).
    destruct (buildRow_succeeds e order (metadata oi) id kind (fs, aps) ts p v b H4 Hb)
      as (row & aw & H5).
    assert (handleOrderBody e (orders w) oi = Next (row, aw)) as Hbody.
    { apply handleOrderBody_Next. exists order, id, kind, (fs, aps), ts, (p, v, b).
      repeat split; try done. by apply pricing_Next. }
    apply buildRow_Next in H5 as (Hid & _ & Hfs & Haps & _).
    apply earlyChecks_Next in H1 as (_ & _ & Hnew & _).
    exists row. split; [|split; [done|split; [|by split]]].
    + rewrite save_results, bind_cons, app_nil_r. unfold outcomeOf.
      rewrite Hbody. simpl. by rewrite Hid.
    + rewrite save_orders, bind_cons, app_nil_r. unfold acceptedOf.
      rewrite Hbody. simpl. by rewrite Hid, Hnew.
Qed.

(** C7, as the code has it. When the checker fails on an order that passed
    the earlier checks: with [no-balance-no-approval], [no-approval] or
    [no-balance] the order is not turned away by this check; it is reported
    as [success] and its row is written, with fillability [no-balance] and
    approval [no-approval], with approval [no-approval] only, or with
    fillability [no-balance] only, exactly when the later stages let it
    through. With any other message it gets the status [not-fillable] and
    nothing is written. *)
Theorem recoverable_fillability (e : Env) (w : World) (oi : OrderInfo) (relay : bool)
    (order : Sdk.BaseOrder) (id : string) (kind : ContractKind) (message : string) :
  earlyChecks e (orders w) oi = Next (order, id, kind) →
  offChainCheck e order = Err message →
  (message = "no-balance-no-approval" →
     (persistedWith e w oi relay id "no-balance" "no-approval"
      ↔ laterStagesPass e oi order id))
  ∧ (message = "no-approval" →
       (persistedWith e w oi relay id "fillable" "no-approval"
        ↔ laterStagesPass e oi order id))
  ∧ (message = "no-balance" →
       (persistedWith e w oi relay id "no-balance" "approved"
        ↔ laterStagesPass e oi order id))
  ∧ (message ∈ ["no-balance-no-approval"; "no-approval"; "no-balance"] →
       ∀ id', {| SaveResult.id := id'; SaveResult.status := "not-fillable" |}
              ∉ (save e w [oi] relay).2)
  ∧ (message ∉ ["no-balance-no-approval"; "no-approval"; "no-balance"] →
       save e w [oi] relay
       = (w, [{| SaveResult.id := id; SaveResult.status := "not-fillable" |}])).
Proof.
  intros H1 Hcheck. split; [|split; [|split; [|split]]].
  - intros ->. apply (accepted_after_fillability e w oi relay order id kind); [done|].
    unfold fillabilityCheck. by rewrite Hcheck.
  - intros ->. apply (accepted_after_fillability e w oi relay order id kind); [done|].
    unfold fillabilityCheck. by rewrite Hcheck.
  - intros ->. apply (accepted_after_fillability e w oi relay order id kind); [done|].
    unfold fillabilityCheck. by rewrite Hcheck.
  - intros Hmsg id' Hin. rewrite save_results, bind_cons, app_nil_r in Hin.
    unfold outcomeOf in Hin.
    destruct (handleOrderBody e (orders w) oi) as [ra|id0 st|] eqn:Hb; simpl in Hin;
      [by apply list_elem_of_singleton in Hin| |by apply elem_of_nil in Hin].
    apply list_elem_of_singleton in Hin. injection Hin as <- <-.
    unfold handleOrderBody in Hb. rewrite H1 in Hb. simpl in Hb.
    assert (∃ status, fillabilityCheck e order id = Next status) as [status Hf].
    { unfold fillabilityCheck. rewrite Hcheck.
      repeat (apply elem_of_cons in Hmsg as [->|Hmsg]; [by eexists|]).
      by apply elem_of_nil in Hmsg. }
    rewrite Hf in Hb. simpl in Hb.
    by apply resolvePriceAndBuild_Return in Hb as [_ [?|?]].
  - intros Hother. apply save_single_rejected.
    unfold handleOrderBody, fillabilityCheck. rewrite H1. simpl. rewrite Hcheck.
    rewrite !bool_decide_eq_false_2; [done|intros ->; apply Hother; set_solver..].
Qed.

Lemma recoverable_fillability_witness :
  persistedWith sampleEnv emptyWorld (listing "0xdave" "1") false
    "0xdave/7/0xnft/1" "no-balance" "no-approval"
  ∧ persistedWith sampleEnv emptyWorld (listing "0xcarol" "1") false
      "0xcarol/7/0xnft/1" "fillable" "no-approval"
  ∧ persistedWith sampleEnv emptyWorld (listing "0xbob" "1") false
      "0xbob/7/0xnft/1" "no-balance" "approved"
  ∧ save sampleEnv emptyWorld [listing "0xerin" "1"] false
    = (emptyWorld,
       [{| SaveResult.id := "0xerin/7/0xnft/1"; SaveResult.status := "not-fillable" |}]).
Proof.
  assert (∀ maker : string,
            laterStagesPass sampleEnv (listing maker "1") (orderParams (listing maker "1"))
              (hash sampleEnv (orderParams (listing maker "1")))) as Hlater.
  { intros maker. exists ("token:0xnft:1", "0xschema"), 100, 100, 1000.
    split; [reflexivity|]. split; [reflexivity|]. discriminate. }
  split; [|split; [|split]].
  - apply (proj1 (recoverable_fillability sampleEnv emptyWorld (listing "0xdave" "1") false
                    (orderParams (listing "0xdave" "1")) "0xdave/7/0xnft/1" erc721
                    "no-balance-no-approval" eq_refl eq_refl) eq_refl).
    apply (Hlater "0xdave").
  - apply (proj1 (proj2 (recoverable_fillability sampleEnv emptyWorld (listing "0xcarol" "1")
                    false (orderParams (listing "0xcarol" "1")) "0xcarol/7/0xnft/1" erc721
                    "no-approval" eq_refl eq_refl)) eq_refl).
    apply (Hlater "0xcarol").
  - apply (proj1 (proj2 (proj2 (recoverable_fillability sampleEnv emptyWorld
                    (listing "0xbob" "1") false (orderParams (listing "0xbob" "1"))
                    "0xbob/7/0xnft/1" erc721 "no-balance" eq_refl eq_refl))) eq_refl).
    apply (Hlater "0xbob").
  - apply (proj2 (proj2 (proj2 (proj2 (recoverable_fillability sampleEnv emptyWorld
                    (listing "0xerin" "1") false (orderParams (listing "0xerin" "1"))
                    "0xerin/7/0xnft/1" erc721 "cancelled" eq_refl eq_refl))))).
    intros H. repeat (apply elem_of_cons in H as [H|H]; [discriminate|]).
    by apply elem_of_nil in H.
Defined.

(** Against C7 as first stated: a listing of twenty units whose maker has no
    balance passes the early checks, the checker fails on it with
    [no-balance], and it is reported as [fees-too-high]; nothing is written. *)
Lemma recoverable_state_is_not_always_accepted :
  earlyChecks sampleEnv (orders emptyWorld) (multiListing "0xbob" "1" "5" 20)
    = Next (orderParams (multiListing "0xbob" "1" "5" 20), "0xbob/1/0xmulti/5", erc1155)
  ∧ offChainCheck sampleEnv (orderParams (multiListing "0xbob" "1" "5" 20)) = Err "no-balance"
  ∧ save sampleEnv emptyWorld [multiListing "0xbob" "1" "5" 20] false
    = (emptyWorld,
       [{| SaveResult.id := "0xbob/1/0xmulti/5"; SaveResult.status := "fees-too-high" |}]).
Proof. repeat split; vm_compute; reflexivity. Qed.

(** ** C8: one failing order does not disturb the batch *)

Lemma outcomeOf_length e tbl oi :
  handleOrderBody e tbl oi ≠ Throw → length (outcomeOf e tbl oi) = 1%nat.
Proof. unfold outcomeOf. by destruct (handleOrderBody e tbl oi). Qed.

Lemma outcomes_length e tbl (l : list OrderInfo) :
  Forall (λ oi, handleOrderBody e tbl oi ≠ Throw) l →
  length (l ≫= outcomeOf e tbl) = length l.
Proof.
  induction 1 as [|oi l Hoi _ IH]; [done|].
  rewrite bind_cons, length_app, outcomeOf_length, IH by done. done.
Qed.

(** C8. When the handler of one order of a batch throws, [save] returns
    what it returns for the batch without that order, results and state
    alike; and when no other handler throws, it returns one result less
    than there are orders. *)
Theorem failure_isolation (e : Env) (w : World) (before after : list OrderInfo)
    (oi : OrderInfo) (relay : bool) :
  handleOrderBody e (orders w) oi = Throw →
  Forall (λ x, handleOrderBody e (orders w) x ≠ Throw) (before ++ after) →
  save e w (before ++ oi :: after) relay = save e w (before ++ after) relay
  ∧ length (save e w (before ++ oi :: after) relay).2
    = (length (before ++ oi :: after) - 1)%nat.
Proof.
  intros Hthrow Hothers.
  assert (save e w (before ++ oi :: after) relay = save e w (before ++ after) relay) as Heq.
  { unfold save. by rewrite batch_skip_thrown. }
  split; [done|].
  rewrite Heq, save_results, outcomes_length by done.
  rewrite !length_app. simpl. lia.
Qed.

Lemma failure_isolation_witness :
  save sampleEnv emptyWorld
       ([listing "0xalice" "1"] ++ freeListing :: [listing "0xbob" "2"]) false
  = save sampleEnv emptyWorld ([listing "0xalice" "1"] ++ [listing "0xbob" "2"]) false
  ∧ length (save sampleEnv emptyWorld
              ([listing "0xalice" "1"] ++ freeListing :: [listing "0xbob" "2"]) false).2
    = (length ([listing "0xalice" "1"] ++ freeListing :: [listing "0xbob" "2"]) - 1)%nat.
Proof.
  apply (failure_isolation sampleEnv emptyWorld [listing "0xalice" "1"]
           [listing "0xbob" "2"] freeListing false).
  - vm_compute. reflexivity.
  - repeat constructor; vm_compute; discriminate.
Defined.

(** ** C9: new-order events *)

Lemma success_results e tbl (l : list OrderInfo) :
  filter (λ r, isSuccess r = true) (l ≫= outcomeOf e tbl)
  = l ≫= λ oi, (λ ra : DbOrder.t * ArweaveEntry,
                  {| SaveResult.id := DbOrder.id ra.1; SaveResult.status := "success" |})
               <$> acceptedOf e tbl oi.
Proof.
  induction l as [|oi l IH]; [done|].
  rewrite !bind_cons, filter_app, IH. f_equal.
  unfold outcomeOf, acceptedOf.
  destruct (handleOrderBody e tbl oi) as [ra|id st|] eqn:Hb; simpl; [done| |done].
  apply handleOrderBody_Return in Hb.
  rewrite filter_cons_False; [done|].
  unfold isSuccess. simpl. intros Hst. apply bool_decide_eq_true in Hst. subst st.
  by apply success_not_rejection in Hb.
Qed.

(** C9. A batch without a successful order makes no call at all. In any
    other batch, [save] calls the bulk insert first and the queue next,
    with one item per successful result, in the order of the results, each
    with the context [new-order-] followed by the order identity; the
    archival relay, when asked for, comes last. The rows handed to the
    insert are those of the successful results, identity by identity. *)
Theorem new_order_events (e : Env) (w : World) (batch : list OrderInfo) (relay : bool) :
  let w' := (save e w batch relay).1 in
  let successes := filter (λ r, isSuccess r = true) (save e w batch relay).2 in
  (successes = [] ∧ w' = w)
  ∨ (∃ rows data,
       DbOrder.id <$> rows = SaveResult.id <$> successes
       ∧ orders w' = insertOnConflictDoNothing (orders w) rows
       ∧ calls w' = calls w
                    ++ [InsertOrders rows;
                        AddToQueue ((λ r, {| context := "new-order-" +:+ SaveResult.id r;
                                             item_id := SaveResult.id r;
                                             trigger_kind := "new-order" |}) <$> successes)]
                    ++ (if relay then [AddPendingOrdersOpenDao data] else [])).
Proof.
  intros w' successes. subst w' successes.
  rewrite save_results, success_results.
  unfold save. rewrite batch_orderValues, batch_results. simpl.
  rewrite success_results.
  assert (DbOrder.id <$> (batch ≫= λ oi, (acceptedOf e (orders w) oi).*1)
          = SaveResult.id <$> (batch ≫= λ oi, (λ ra : DbOrder.t * ArweaveEntry,
                      {| SaveResult.id := DbOrder.id ra.1; SaveResult.status := "success" |})
                    <$> acceptedOf e (orders w) oi)) as Hids.
  { induction batch as [|oi l IH]; [done|].
    rewrite !bind_cons, !fmap_app, IH. f_equal.
    rewrite <-!list_fmap_compose. by apply list_fmap_ext. }
  destruct (batch ≫= λ oi, (acceptedOf e (orders w) oi).*1) as [|row rows] eqn:Hrows.
  - left. split; [|done]. symmetry in Hids. by apply fmap_nil_inv in Hids.
  - right. eexists (row :: rows), _. split; [done|]. split; [done|]. simpl. done.
Qed.

(** ** C10: the default source *)

Lemma not_inherited_lookup key (obj : gmap string Sources.SourcesEntity) :
  obj !! key = None → key ∉ Sources.objectPrototype → Sources.hasProperty key obj = false.
Proof.
  intros Hown Hproto. unfold Sources.hasProperty. rewrite Hown.
  rewrite (bool_decide_eq_false_2 (is_Some None)) by (by intros [? ?]).
  by rewrite bool_decide_eq_false_2.
Qed.

(** [get] answers with the default source for an id that was not loaded. *)
Lemma get_default (self : Sources.t) (id : Z) :
  Sources.sources self !! id = None →
  Sources.get self id = Sources.getDefaultSource
  ∧ Sources.id (Sources.get self id) = 0
  ∧ Sources.address (Sources.get self id) = AddressZero.
Proof. intros H. unfold Sources.get. by rewrite H. Qed.

(** So do [getByName] and [getByAddress], for a key that is neither loaded
    nor the name of a member of [Object.prototype]. *)
Lemma getByName_default (self : Sources.t) (name : string) :
  Sources.sourcesByNames self !! Sources.toLower name = None →
  Sources.toLower name ∉ Sources.objectPrototype →
  Sources.getByName self name true = Sources.Entity Sources.getDefaultSource.
Proof.
  intros Hown Hproto. unfold Sources.getByName. by rewrite not_inherited_lookup.
Qed.

Lemma getByAddress_default cfg (self : Sources.t) (address : string) contract tokenId :
  Sources.sourcesByAddress self !! Sources.toLower address = None →
  Sources.toLower address ∉ Sources.objectPrototype →
  ∃ s, Sources.getByAddress cfg self address contract tokenId true = Ok (Sources.Entity s)
       ∧ Sources.id s = 0 ∧ Sources.address s = AddressZero.
Proof.
  intros Hown Hproto. unfold Sources.getByAddress. rewrite not_inherited_lookup by done.
  destruct contract as [c|], tokenId as [i|]; try (by eexists).
  destruct (Sources.truthy (Some c) && Sources.truthy (Some i)); by eexists.
Qed.

(** C10, at an input where the code departs from it. With no source loaded
    under that name, [getByName("constructor")] finds the key through the
    prototype of the lookup object and returns the inherited member, not the
    default source; [getByAddress] with a contract and a token id throws on
    the same key. *)
Theorem lookup_of_inherited_key (cfg : Sources.Config) :
  Sources.sourcesByNames emptySources !! Sources.toLower "constructor" = None
  ∧ Sources.getByName emptySources "constructor" true = Sources.Inherited "constructor"
  ∧ Sources.getByName emptySources "constructor" true ≠ Sources.Entity Sources.getDefaultSource
  ∧ Sources.getByAddress cfg emptySources "constructor" (Some "0xnft") (Some "1") true
    = Err "TypeError".
Proof. repeat split; try reflexivity. discriminate. Qed.

(** * More on [save] *)

(** ** Each order on its own *)

Lemma earlyChecks_Return_id e tbl oi id st :
  earlyChecks e tbl oi = Return id st →
  ∃ order, newOrder e (orderParams oi) = Ok order ∧ id = hash e order.
Proof.
  unfold earlyChecks. intros H.
  destruct (newOrder e (orderParams oi)) as [o|]; simpl in H; [|discriminate].
  exists o. split; [done|].
  destruct (tbl !! hash e o); simpl in H; [by simplify_eq|].
  destruct (getContractKind e (Sdk.nft o)) as [[k|]|]; simpl in H;
    [|by simplify_eq|discriminate].
  destruct (oneOrNone (select (nonceQuery e k o) tbl)) as [[r|]|?|] eqn:Hn; simpl in H;
    [by simplify_eq| |by apply oneOrNone_Return in Hn|discriminate].
  repeat case_match; by simplify_eq.
Qed.

Lemma handleOrderBody_Return_id e tbl oi id st :
  handleOrderBody e tbl oi = Return id st →
  ∃ order, newOrder e (orderParams oi) = Ok order ∧ id = hash e order.
Proof.
  unfold handleOrderBody. intros H.
  apply bind_Return_inv in H as [H|([[order id0] kind] & H1 & H)];
    [by eapply earlyChecks_Return_id|].
  apply afterEarlyChecks_Return in H as [-> _].
  apply earlyChecks_Next in H1 as (Ho & -> & _). by exists order.
Qed.

Lemma save_single_results e w oi relay :
  (save e w [oi] relay).2 = outcomeOf e (orders w) oi.
Proof. rewrite save_results. simpl. apply app_nil_r. Qed.

Lemma insert_dom (rows : list DbOrder.t) (tbl : gmap string DbOrder.t) :
  dom (insertOnConflictDoNothing tbl rows) = dom tbl ∪ list_to_set (DbOrder.id <$> rows).
Proof.
  revert tbl. induction rows as [|r rows IH]; intros tbl; simpl.
  - by rewrite (right_id_L ∅ (∪)).
  - rewrite IH. destruct (tbl !! DbOrder.id r) eqn:Hr.
    + apply elem_of_dom_2 in Hr. apply set_eq. intros x.
      rewrite !elem_of_union, elem_of_singleton. intuition congruence.
    + rewrite dom_insert_L. apply set_eq. intros x.
      rewrite !elem_of_union, elem_of_singleton. tauto.
Qed.

(** X1. In whatever order the handlers of a batch complete, the results of
    the batch are, up to their order, those that each order gets when it is
    saved alone against the same table; so an order's outcome does not
    depend on its neighbours. *)
Theorem batch_results_are_single_results (e : Env) (w : World)
    (batch completed : list OrderInfo) (relay : bool) :
  completed ≡ₚ batch →
  (save e w completed relay).2 ≡ₚ batch ≫= λ oi, (save e w [oi] relay).2.
Proof.
  intros Hperm. rewrite save_results, Hperm. clear Hperm.
  induction batch as [|oi l IH]; [done|].
  by rewrite !bind_cons, IH, save_single_results.
Qed.

Lemma batch_results_are_single_results_witness :
  (save sampleEnv emptyWorld [listing "0xerin" "2"; listing "0xalice" "1"; freeListing] false).2
  ≡ₚ [listing "0xalice" "1"; freeListing; listing "0xerin" "2"]
       ≫= λ oi, (save sampleEnv emptyWorld [oi] false).2.
Proof.
  apply (batch_results_are_single_results sampleEnv emptyWorld
           [listing "0xalice" "1"; freeListing; listing "0xerin" "2"]
           [listing "0xerin" "2"; listing "0xalice" "1"; freeListing] false).
  symmetry.
  rewrite (Permutation_swap (listing "0xalice" "1") (listing "0xerin" "2") [freeListing]).
  apply perm_skip, perm_swap.
Defined.

(** X2. Whatever order the orders of a batch are taken in, the same results
    come out, up to their order, and the same identities are in the table
    afterwards. *)
Theorem batch_order_irrelevant (e : Env) (w : World) (batch batch' : list OrderInfo)
    (relay : bool) :
  batch ≡ₚ batch' →
  (save e w batch relay).2 ≡ₚ (save e w batch' relay).2
  ∧ dom (orders (save e w batch relay).1) = dom (orders (save e w batch' relay).1).
Proof.
  intros Hperm. split.
  - rewrite !save_results. by rewrite Hperm.
  - rewrite !save_orders.
    rewrite !insert_dom. f_equal. apply set_eq. intros x.
    rewrite !elem_of_list_to_set. by rewrite Hperm.
Qed.

Lemma batch_order_irrelevant_witness :
  (save sampleEnv emptyWorld [listing "0xalice" "1"; freeListing; listing "0xerin" "2"] false).2
  ≡ₚ (save sampleEnv emptyWorld [listing "0xerin" "2"; listing "0xalice" "1"; freeListing] false).2
  ∧ dom (orders (save sampleEnv emptyWorld
                   [listing "0xalice" "1"; freeListing; listing "0xerin" "2"] false).1)
    = dom (orders (save sampleEnv emptyWorld
                     [listing "0xerin" "2"; listing "0xalice" "1"; freeListing] false).1).
Proof.
  apply (batch_order_irrelevant sampleEnv emptyWorld
           [listing "0xalice" "1"; freeListing; listing "0xerin" "2"]
           [listing "0xerin" "2"; listing "0xalice" "1"; freeListing] false).
  rewrite (Permutation_swap (listing "0xalice" "1") (listing "0xerin" "2") [freeListing]).
  apply perm_skip, perm_swap.
Defined.

(** X3. Every result of [save] carries the hash of one of the orders of the
    batch, as the SDK normalized it, and one of twelve statuses: [success]
    or one of the eleven that turn an order away. *)
Theorem results_are_well_formed (e : Env) (w : World) (batch : list OrderInfo)
    (relay : bool) (r : SaveResult.t) :
  r ∈ (save e w batch relay).2 →
  (SaveResult.status r = "success" ∨ SaveResult.status r ∈ rejections)
  ∧ ∃ oi order, oi ∈ batch ∧ newOrder e (orderParams oi) = Ok order
                ∧ SaveResult.id r = hash e order.
Proof.
  rewrite save_results. intros Hr.
  apply list_elem_of_bind in Hr as (oi & Hr & Hoi). unfold outcomeOf in Hr.
  destruct (handleOrderBody e (orders w) oi) as [[row aw]|id st|] eqn:Hb; simpl in Hr.
  - apply list_elem_of_singleton in Hr as ->. simpl. split; [by left|].
    apply accepted_identity in Hb as (order & Ho & Hid & _). by exists oi, order.
  - apply list_elem_of_singleton in Hr as ->. simpl. split.
    + right. by eapply handleOrderBody_Return.
    + apply handleOrderBody_Return_id in Hb as (order & Ho & ->). by exists oi, order.
  - by apply elem_of_nil in Hr.
Qed.

Lemma results_are_well_formed_witness :
  ("not-fillable" = "success" ∨ "not-fillable" ∈ rejections)
  ∧ ∃ oi order, oi ∈ [listing "0xalice" "1"; listing "0xerin" "2"]
                ∧ newOrder sampleEnv (orderParams oi) = Ok order
                ∧ "0xerin/7/0xnft/2" = hash sampleEnv order.
Proof.
  apply (results_are_well_formed sampleEnv emptyWorld
           [listing "0xalice" "1"; listing "0xerin" "2"] false
           {| SaveResult.id := "0xerin/7/0xnft/2"; SaveResult.status := "not-fillable" |}).
  vm_compute. apply list_elem_of_further, list_elem_of_here.
Defined.

(** ** The table after a batch *)

Lemma accepted_ids e tbl (l : list OrderInfo) :
  DbOrder.id <$> (l ≫= λ oi, (acceptedOf e tbl oi).*1)
  = SaveResult.id <$> filter (λ r, isSuccess r = true) (l ≫= outcomeOf e tbl).
Proof.
  rewrite success_results. induction l as [|oi l IH]; [done|].
  rewrite !bind_cons, !fmap_app, IH. f_equal.
  rewrite <-!list_fmap_compose. by apply list_fmap_ext.
Qed.

Lemma accepted_is_new e tbl (l : list OrderInfo) (row : DbOrder.t) :
  row ∈ l ≫= (λ oi, (acceptedOf e tbl oi).*1) → tbl !! DbOrder.id row = None.
Proof.
  intros Hrow. apply list_elem_of_bind in Hrow as (oi & Hrow & _).
  apply list_elem_of_fmap in Hrow as (ra & -> & Hrow). unfold acceptedOf in Hrow.
  destruct (handleOrderBody e tbl oi) as [[row aw]| |] eqn:Hb; simpl in Hrow;
    [|by apply elem_of_nil in Hrow..].
  apply list_elem_of_singleton in Hrow as ->.
  apply accepted_identity in Hb as (order & _ & Hid & Hnone). simpl. by rewrite Hid.
Qed.

(** X4. [save] never removes or changes a row. The identities in the table
    after a batch are those that were there and those of the successful
    results, none of which was there before; the table grows by the number
    of distinct identities among the successful results. *)
Theorem table_growth (e : Env) (w : World) (batch : list OrderInfo) (relay : bool) :
  let w' := (save e w batch relay).1 in
  let ids := SaveResult.id <$> filter (λ r, isSuccess r = true) (save e w batch relay).2 in
  orders w ⊆ orders w'
  ∧ dom (orders w') = dom (orders w) ∪ list_to_set ids
  ∧ Forall (λ id, orders w !! id = None) ids
  ∧ size (orders w') = (size (orders w) + length (remove_dups ids))%nat.
Proof.
  intros w' ids. subst w' ids. rewrite save_orders, save_results, <-accepted_ids.
  assert (Forall (λ id, orders w !! id = None)
            (DbOrder.id <$> (batch ≫= λ oi, (acceptedOf e (orders w) oi).*1))) as Hnew.
  { apply Forall_forall. intros id Hid.
    apply list_elem_of_fmap in Hid as (row & -> & Hrow). by eapply accepted_is_new. }
  split; [apply insert_grows|]. split; [apply insert_dom|]. split; [done|].
  rewrite <-!size_dom, insert_dom.
  set (ids := DbOrder.id <$> _) in *.
  assert (list_to_set ids =@{gset string} list_to_set (remove_dups ids)) as ->.
  { apply set_eq. intros x. by rewrite !elem_of_list_to_set, elem_of_remove_dups. }
  rewrite size_union, size_list_to_set; [done|apply NoDup_remove_dups|].
  intros x Hx Hx'. rewrite elem_of_list_to_set, !elem_of_remove_dups in Hx'.
  apply elem_of_dom in Hx as [r Hr].
  rewrite Forall_forall in Hnew. apply Hnew in Hx'. congruence.
Qed.

Lemma insert_replicate (tbl : gmap string DbOrder.t) (row : DbOrder.t) (n : nat) :
  tbl !! DbOrder.id row = None →
  insertOnConflictDoNothing tbl (replicate (S n) row) = <[DbOrder.id row := row]> tbl.
Proof.
  intros Hnew. simpl. rewrite Hnew. apply insert_all_known, Forall_replicate.
  rewrite lookup_insert_eq. by eexists.
Qed.

(** The calls of [save], from what each order of the batch gives. *)
Lemma save_calls e w (l : list OrderInfo) relay :
  calls (save e w l relay).1
  = match l ≫= (λ oi, (acceptedOf e (orders w) oi).*1) with
    | [] => calls w
    | rows =>
        calls w
        ++ [InsertOrders rows;
            AddToQueue (newOrderItem
                        <$> filter (λ r, isSuccess r = true) (l ≫= outcomeOf e (orders w)))]
        ++ (if relay
            then [AddPendingOrdersOpenDao (l ≫= λ oi, (acceptedOf e (orders w) oi).*2)]
            else [])
    end.
Proof.
  unfold save. rewrite batch_orderValues, batch_results, batch_arweaveData. simpl.
  destruct (l ≫= _) as [|row rows]; [done|]. by destruct relay.
Qed.

Lemma success_replicate (r : SaveResult.t) (m : nat) :
  isSuccess r = true → filter (λ r, isSuccess r = true) (replicate m r) = replicate m r.
Proof.
  intros Hr. induction m as [|m IH]; [done|].
  cbn [replicate]. by rewrite filter_cons_True, IH.
Qed.

(** X5. An order that would be accepted, submitted several times in one
    batch, is reported as [success] each time and queued each time, and one
    row is written for it. *)
Theorem repeated_in_one_batch (e : Env) (w : World) (oi : OrderInfo) (relay : bool)
    (n : nat) (row : DbOrder.t) (aw : ArweaveEntry) :
  handleOrderBody e (orders w) oi = Next (row, aw) →
  let w' := (save e w (replicate (S n) oi) relay).1 in
  (save e w (replicate (S n) oi) relay).2
    = replicate (S n) {| SaveResult.id := DbOrder.id row; SaveResult.status := "success" |}
  ∧ orders w' = <[DbOrder.id row := row]> (orders w)
  ∧ size (orders w') = S (size (orders w))
  ∧ calls w' = calls w
               ++ [InsertOrders (replicate (S n) row);
                   AddToQueue (replicate (S n) {| context := "new-order-" +:+ DbOrder.id row;
                                                  item_id := DbOrder.id row;
                                                  trigger_kind := "new-order" |})]
               ++ (if relay then [AddPendingOrdersOpenDao (replicate (S n) aw)] else []).
Proof.
  intros Hb w'. subst w'.
  assert (∀ m, replicate m oi ≫= outcomeOf e (orders w)
               = replicate m {| SaveResult.id := DbOrder.id row;
                                SaveResult.status := "success" |}) as Hres.
  { induction m as [|m IH]; [done|].
    cbn [replicate]. rewrite bind_cons, IH. unfold outcomeOf. by rewrite Hb. }
  assert (∀ m, replicate m oi ≫= (λ oi, (acceptedOf e (orders w) oi).*1)
               = replicate m row) as Hrows.
  { induction m as [|m IH]; [done|].
    cbn [replicate]. rewrite bind_cons, IH. unfold acceptedOf. by rewrite Hb. }
  assert (∀ m, replicate m oi ≫= (λ oi, (acceptedOf e (orders w) oi).*2)
               = replicate m aw) as Haws.
  { induction m as [|m IH]; [done|].
    cbn [replicate]. rewrite bind_cons, IH. unfold acceptedOf. by rewrite Hb. }
  pose proof Hb as Hnew. apply accepted_identity in Hnew as (order & _ & Hid & Hnew).
  rewrite <-Hid in Hnew.
  split; [by rewrite save_results|].
  split; [by rewrite save_orders, Hrows, insert_replicate|].
  split; [by rewrite save_orders, Hrows, insert_replicate, map_size_insert_None|].
  rewrite save_calls, Hrows, Hres, Haws, success_replicate, fmap_replicate by done.
  done.
Qed.

Lemma repeated_in_one_batch_witness :
  ∃ row aw, handleOrderBody sampleEnv ∅ (listing "0xalice" "1") = Next (row, aw)
    ∧ (save sampleEnv emptyWorld (replicate 3 (listing "0xalice" "1")) true).2
      = replicate 3 {| SaveResult.id := "0xalice/7/0xnft/1"; SaveResult.status := "success" |}
    ∧ size (orders (save sampleEnv emptyWorld (replicate 3 (listing "0xalice" "1")) true).1)
      = 1%nat.
Proof.
  destruct (handleOrderBody sampleEnv ∅ (listing "0xalice" "1")) as [[row aw]| |] eqn:Hb;
    [|vm_compute in Hb; discriminate..].
  exists row, aw. split; [reflexivity|].
  pose proof (repeated_in_one_batch sampleEnv emptyWorld (listing "0xalice" "1") true 2
                row aw Hb) as (Hres & _ & Hsize & _).
  vm_compute in Hb. injection Hb as <- _. split; [exact Hres|exact Hsize].
Defined.

(** ** What an accepted row holds *)

Lemma mapM_Next_inv {A B} (f : A → flow B) (l : list A) (k : list B) :
  mapM f l = Next k → Forall2 (λ x y, f x = Next y) l k.
Proof.
  revert k. induction l as [|x l IH]; intros k H; simpl in H.
  - injection H as <-. constructor.
  - apply bind_Next_inv in H as (y & Hy & H).
    apply bind_Next_inv in H as (ys & Hys & H). injection H as <-.
    constructor; [done|by apply IH].
Qed.

Lemma resolveTokenSet_Next e order md id t sh :
  resolveTokenSet e order md id = Next (t, sh) →
  sh = default (generateSchemaHash e (schema md)) (schemaHash md)
  ∧ t ≠ ""
  ∧ (Sdk.kind order = Some "erc721-single-token"
     ∨ Sdk.kind order = Some "erc1155-single-token")
  ∧ ∃ others, singleTokenSave e
                {| ts_id := "token:" +:+ Sdk.nft order +:+ ":" +:+ Sdk.nftId order;
                   ts_schemaHash := sh;
                   ts_contract := Sdk.nft order;
                   ts_tokenId := Sdk.nftId order |} = Ok (t :: others).
Proof.
  unfold resolveTokenSet. intros H.
  apply bind_Next_inv in H as (ts & Hts & H).
  destruct ts as [t'|]; [|discriminate].
  destruct (bool_decide (t' = "")) eqn:Ht; [discriminate|]. injection H as -> <-.
  apply bool_decide_eq_false in Ht. split; [done|]. split; [done|].
  destruct (Sdk.kind order) as [k|]; [|discriminate].
  destruct (bool_decide (k = "erc721-single-token") || _) eqn:Hk; [|discriminate].
  apply bind_Next_inv in Hts as (sets & Hsets & Hts).
  destruct (singleTokenSave e _) as [sets'|] eqn:Hsave; [|discriminate].
  injection Hsets as ->. destruct sets as [|s others]; [discriminate|].
  injection Hts as ->. split; [|by exists others].
  apply orb_true_iff in Hk as [Hk|Hk]; apply bool_decide_eq_true in Hk; subst k; auto.
Qed.

(** X6. [save] accepts no order that is expired, private, structurally
    invalid or badly signed, none whose kind is other than a single-token
    one, and none at a price of zero: the row of an accepted order holds an
    order that the SDK built from the input, whose expiry, kept in the row,
    lies after the clock, which is open to any taker, valid and signed, of
    one of the two single-token kinds, at a positive price. *)
Theorem accepted_orders_passed_every_check (e : Env) (tbl : gmap string DbOrder.t)
    (oi : OrderInfo) (row : DbOrder.t) (aw : ArweaveEntry) :
  handleOrderBody e tbl oi = Next (row, aw) →
  let order := DbOrder.raw_data row in
  newOrder e (orderParams oi) = Ok order
  ∧ DbOrder.id row = hash e order
  ∧ DbOrder.expiration row = Sdk.expiry order
  ∧ currentTime e < DbOrder.expiration row
  ∧ Sdk.taker order = AddressZero
  ∧ checkValidity e order = true
  ∧ checkSignature e order = true
  ∧ (Sdk.kind order = Some "erc721-single-token"
     ∨ Sdk.kind order = Some "erc1155-single-token")
  ∧ DbOrder.token_set_id row ≠ ""
  ∧ 0 < DbOrder.price row.
Proof.
  intros H order. subst order.
  pose proof H as Hpvf. apply accepted_pricing in Hpvf as [Hpvf _].
  apply feeBps_nonneg in Hpvf as [Hprice _].
  apply handleOrderBody_Next in H
    as (order & id & kind & status & [t sh] & [[p v] b] & H1 & _ & H3 & _ & H5).
  apply earlyChecks_Next in H1 as (Ho & -> & _ & _ & _ & Hexp & _ & Htk & Hv & Hs).
  apply resolveTokenSet_Next in H3 as (_ & Ht & Hkind & _).
  unfold buildRow in H5. destruct status as [fs aps].
  apply bind_Next_inv in H5 as (fb & _ & H5).
  apply bind_Next_inv in H5 as (n & _ & H5). injection H5 as <- _. simpl in *.
  by repeat split.
Qed.

Lemma accepted_orders_passed_every_check_witness :
  ∃ row aw, handleOrderBody sampleEnv ∅ (listing "0xbob" "1") = Next (row, aw)
            ∧ currentTime sampleEnv < DbOrder.expiration row
            ∧ 0 < DbOrder.price row.
Proof.
  destruct (handleOrderBody sampleEnv ∅ (listing "0xbob" "1")) as [[row aw]| |] eqn:Hb;
    [|vm_compute in Hb; discriminate..].
  exists row, aw. split; [reflexivity|].
  pose proof (accepted_orders_passed_every_check sampleEnv ∅ (listing "0xbob" "1") row aw Hb)
    as (_ & _ & _ & Hexp & _ & _ & _ & _ & _ & Hprice).
  by split.
Defined.

(** ** The fee breakdown *)

Lemma div_add_le (a b p : Z) : 0 < p → a / p + b / p ≤ (a + b) / p.
Proof.
  intros Hp. apply Z.div_le_lower_bound; [done|].
  pose proof (Z.mul_div_le a p Hp). pose proof (Z.mul_div_le b p Hp). lia.
Qed.

Lemma breakdown_sum (fees : list Sdk.Fee) (p : Z) :
  0 < p →
  foldr (λ f acc, Z.of_N (Sdk.amount f) * 10000 / p + acc) 0 fees
  ≤ foldr (λ f acc, Z.of_N (Sdk.amount f) + acc) 0 fees * 10000 / p.
Proof.
  intros Hp. induction fees as [|f fees IH]; simpl; [by rewrite Z.div_0_l by lia|].
  etrans; [apply Z.add_le_mono_l, IH|]. etrans; [by apply div_add_le|].
  apply Z.div_le_mono; lia.
Qed.

Lemma breakdown_entries e order md id kind status ts p v b row aw :
  0 < p →
  buildRow e order md id kind status ts (p, v, b) = Next (row, aw) →
  DbOrder.fee_breakdown row
  = (λ f, {| DbOrder.fee_kind := "royalty";
             DbOrder.fee_recipient := Sdk.recipient f;
             DbOrder.bps := Z.of_N (Sdk.amount f) * 10000 / p |}) <$> Sdk.fees order.
Proof.
  intros Hp H. unfold buildRow in H. destruct status as [fs aps], ts as [t sh].
  apply bind_Next_inv in H as (fb & Hfb & H).
  apply bind_Next_inv in H as (n & _ & H). injection H as <- _. simpl.
  apply mapM_Next_inv in Hfb.
  induction Hfb as [|f y fees ys Hy _ IH]; [done|]. rewrite fmap_cons, <-IH. f_equal.
  apply bind_Next_inv in Hy as (q & Hq & Hy).
  apply bind_Next_inv in Hy as (m & Hm & Hy). injection Hy as <-.
  apply Bn_toNumber_Next in Hm as ->. apply Bn_div_Next in Hq as [_ ->].
  by rewrite Z.quot_div_nonneg by lia.
Qed.

Lemma breakdown_total (fees : list Sdk.Fee) (p : Z) :
  foldr (λ entry acc, DbOrder.bps entry + acc) 0
    ((λ f, {| DbOrder.fee_kind := "royalty";
              DbOrder.fee_recipient := Sdk.recipient f;
              DbOrder.bps := Z.of_N (Sdk.amount f) * 10000 / p |}) <$> fees)
  = foldr (λ f acc, Z.of_N (Sdk.amount f) * 10000 / p + acc) 0 fees.
Proof.
  induction fees as [|f fees IH]; [done|]. rewrite fmap_cons. simpl. by rewrite IH.
Qed.

(** X7. The fee breakdown of an accepted row has one entry for each fee of
    the order, in the order of the fees, of kind [royalty], for the fee's
    recipient, at [floor(amount * 10000 / price)] basis points of the price
    in the row. No entry exceeds the fee rate of the row, and neither does
    their sum. *)
Theorem fee_breakdown_of_accepted (e : Env) (tbl : gmap string DbOrder.t) (oi : OrderInfo)
    (row : DbOrder.t) (aw : ArweaveEntry) :
  handleOrderBody e tbl oi = Next (row, aw) →
  DbOrder.fee_breakdown row
  = (λ f, {| DbOrder.fee_kind := "royalty";
             DbOrder.fee_recipient := Sdk.recipient f;
             DbOrder.bps := Z.of_N (Sdk.amount f) * 10000 / DbOrder.price row |})
    <$> Sdk.fees (DbOrder.raw_data row)
  ∧ Forall (λ entry, 0 ≤ DbOrder.bps entry ≤ DbOrder.fee_bps row) (DbOrder.fee_breakdown row)
  ∧ foldr (λ entry acc, DbOrder.bps entry + acc) 0 (DbOrder.fee_breakdown row)
    ≤ DbOrder.fee_bps row.
Proof.
  intros H.
  pose proof H as Hpvf. apply accepted_pricing in Hpvf as [Hpvf _].
  pose proof Hpvf as Hpos. apply feeBps_nonneg in Hpos as [Hprice _].
  apply priceValueFee_Next in Hpvf as (_ & _ & Hbps).
  rewrite Z.quot_div_nonneg in Hbps
    by (pose proof (getFeeAmount_nonneg (DbOrder.raw_data row)); lia).
  apply handleOrderBody_Next in H
    as (order & id & kind & status & ts & [[p v] b] & _ & _ & _ & _ & H5).
  pose proof H5 as Hrow. apply buildRow_Next in Hrow as (_ & _ & _ & _ & Hp & _ & _ & Hraw).
  simpl in Hp. rewrite Hp in Hprice.
  apply breakdown_entries in H5 as Hfb; [|done]. rewrite Hraw, Hp.
  split; [done|]. rewrite Hfb, Hbps, Hraw, Hp. unfold Sdk.getFeeAmount.
  split; [|rewrite breakdown_total; by apply breakdown_sum].
  apply Forall_fmap, Forall_forall. intros f Hf. simpl.
  split; [apply Z.div_pos; lia|]. apply Z.div_le_mono; [lia|].
  apply Z.mul_le_mono_nonneg_r; [lia|]. by apply fee_le_total.
Qed.

Lemma fee_breakdown_of_accepted_witness :
  ∃ row aw,
    handleOrderBody sampleEnv ∅
      (erc721Listing "0xalice" "3" "8" "0xeeee" 70 [royalty 1; royalty 2]) = Next (row, aw)
    ∧ DbOrder.bps <$> DbOrder.fee_breakdown row = [136; 273]
    ∧ DbOrder.fee_bps row = 410
    ∧ foldr (λ entry acc, DbOrder.bps entry + acc) 0 (DbOrder.fee_breakdown row)
      ≤ DbOrder.fee_bps row.
Proof.
  destruct (handleOrderBody sampleEnv ∅
              (erc721Listing "0xalice" "3" "8" "0xeeee" 70 [royalty 1; royalty 2]))
    as [[row aw]| |] eqn:Hb; [|vm_compute in Hb; discriminate..].
  exists row, aw. split; [reflexivity|].
  pose proof (fee_breakdown_of_accepted sampleEnv ∅ _ row aw Hb) as (_ & _ & Hsum).
  split; [|split; [|exact Hsum]]; vm_compute in Hb; by injection Hb as <- _.
Defined.

(** ** The archival relay *)

Lemma accepted_entry e tbl oi row aw :
  handleOrderBody e tbl oi = Next (row, aw) →
  aw_order aw = DbOrder.raw_data row
  ∧ aw_schemaHash aw
    = default (generateSchemaHash e (schema (metadata oi))) (schemaHash (metadata oi))
  ∧ aw_source aw = default (Exchange e) (source (metadata oi)).
Proof.
  intros H. apply handleOrderBody_Next in H
    as (order & id & kind & [fs aps] & [t sh] & [[p v] b] & _ & _ & H3 & _ & H5).
  apply resolveTokenSet_Next in H3 as (-> & _).
  unfold buildRow in H5.
  apply bind_Next_inv in H5 as (fb & _ & H5).
  apply bind_Next_inv in H5 as (n & _ & H5). by injection H5 as <- <-.
Qed.

(** X8. Without [relayToArweave], [save] never calls the archival relay.
    With it, either no order of the batch is reported as [success] and
    [save] makes no call at all, or at least one order is accepted and the
    relay is called, last, with one entry for each row handed to the insert,
    in the same order. These rows are those of the accepted orders of the
    batch, all of them, and the entry of a row holds the order of the row,
    the schema hash from the metadata or else generated from its schema, and
    the source from the metadata or else the exchange address. *)
Theorem relay_receives_accepted_orders (e : Env) (w : World) (batch : list OrderInfo)
    (relay : bool) :
  let w' := (save e w batch relay).1 in
  ∃ new, calls w' = calls w ++ new
    ∧ if relay
      then (new = []
            ∧ Forall (λ r, SaveResult.status r ≠ "success") (save e w batch relay).2)
           ∨ ∃ rows items accepted,
               accepted ≠ []
               ∧ new = [InsertOrders rows; AddToQueue items;
                        AddPendingOrdersOpenDao accepted.*2]
               ∧ rows = (accepted.*1).*2
               ∧ (∀ oi row aw,
                    oi ∈ batch → handleOrderBody e (orders w) oi = Next (row, aw) →
                    (oi, row, aw) ∈ accepted)
               ∧ Forall (λ '(oi, row, aw),
                    oi ∈ batch
                    ∧ handleOrderBody e (orders w) oi = Next (row, aw)
                    ∧ aw_order aw = DbOrder.raw_data row
                    ∧ aw_schemaHash aw
                      = default (generateSchemaHash e (schema (metadata oi)))
                                (schemaHash (metadata oi))
                    ∧ aw_source aw = default (Exchange e) (source (metadata oi)))
                  accepted
      else Forall (λ call, ∀ data, call ≠ AddPendingOrdersOpenDao data) new.
Proof.
  intros w'. subst w'. rewrite save_calls, save_results.
  set (acc := batch ≫= λ oi, (λ ra, (oi, ra.1, ra.2)) <$> acceptedOf e (orders w) oi).
  assert (batch ≫= (λ oi, (acceptedOf e (orders w) oi).*1) = (acc.*1).*2) as Hrows.
  { subst acc. induction batch as [|oi l IH]; [done|].
    rewrite !bind_cons, !fmap_app, IH. f_equal.
    rewrite <-!list_fmap_compose. by apply list_fmap_ext. }
  assert (batch ≫= (λ oi, (acceptedOf e (orders w) oi).*2) = acc.*2) as Haws.
  { clear Hrows. subst acc. induction batch as [|oi l IH]; [done|].
    rewrite !bind_cons, !fmap_app, IH. f_equal.
    rewrite <-!list_fmap_compose. by apply list_fmap_ext. }
  assert (Forall (λ '(oi, row, aw),
                    oi ∈ batch
                    ∧ handleOrderBody e (orders w) oi = Next (row, aw)
                    ∧ aw_order aw = DbOrder.raw_data row
                    ∧ aw_schemaHash aw
                      = default (generateSchemaHash e (schema (metadata oi)))
                                (schemaHash (metadata oi))
                    ∧ aw_source aw = default (Exchange e) (source (metadata oi))) acc) as Hacc.
  { apply Forall_forall. intros [[oi row] aw] Hin. subst acc.
    apply list_elem_of_bind in Hin as (oi' & Hin & Hoi).
    apply list_elem_of_fmap in Hin as ([row' aw'] & [= -> -> ->] & Hin).
    split; [done|]. unfold acceptedOf in Hin.
    destruct (handleOrderBody e (orders w) oi') as [ra| |] eqn:Hb; simpl in Hin;
      [|by apply elem_of_nil in Hin..].
    apply list_elem_of_singleton in Hin as <-. split; [done|]. by apply accepted_entry in Hb. }
  assert (∀ oi row aw,
            oi ∈ batch → handleOrderBody e (orders w) oi = Next (row, aw) →
            (oi, row, aw) ∈ acc) as Hall.
  { intros oi row aw Hoi Hb. subst acc. apply list_elem_of_bind. exists oi. split; [|done].
    unfold acceptedOf. rewrite Hb. simpl. apply list_elem_of_here. }
  rewrite Hrows, Haws.
  destruct ((acc.*1).*2) as [|row rows] eqn:Hnil.
  - exists []. split; [by rewrite app_nil_r|]. destruct relay; [left|constructor].
    split; [done|]. apply fmap_nil_inv, fmap_nil_inv in Hnil.
    apply Forall_forall. intros r Hr.
    apply list_elem_of_bind in Hr as (oi & Hr & Hoi). unfold outcomeOf in Hr.
    destruct (handleOrderBody e (orders w) oi) as [[row aw]|id st|] eqn:Hb; simpl in Hr.
    + apply (Hall oi row aw Hoi) in Hb. rewrite Hnil in Hb. by apply elem_of_nil in Hb.
    + apply list_elem_of_singleton in Hr as ->. simpl. intros ->.
      apply handleOrderBody_Return in Hb. by apply success_not_rejection in Hb.
    + by apply elem_of_nil in Hr.
  - destruct relay.
    + eexists. split; [done|]. right. eexists _, _, acc. rewrite Hnil.
      split; [|done]. intros Heq. by rewrite Heq in Hnil.
    + eexists. split; [done|]. simpl. by repeat constructor.
Qed.

(** ** Buy orders *)

(** X9. On a chain where the wrapped native token and the native
    placeholder are two addresses, [save] accepts no buy order: every
    accepted order is a sell order, its row has the side [sell] and a value
    equal to its price. *)
Theorem only_sell_orders_when_tokens_differ (e : Env) (tbl : gmap string DbOrder.t)
    (oi : OrderInfo) (row : DbOrder.t) (aw : ArweaveEntry) :
  Weth e ≠ Eth e →
  handleOrderBody e tbl oi = Next (row, aw) →
  Sdk.direction (DbOrder.raw_data row) = Sdk.SELL
  ∧ DbOrder.side row = "sell"
  ∧ DbOrder.value row = DbOrder.price row.
Proof.
  intros Hdiff H.
  pose proof H as Hpvf. apply accepted_pricing in Hpvf as [Hpvf _].
  apply priceValueFee_Next in Hpvf as (Hpv & _).
  apply handleOrderBody_Next in H
    as (order & id & kind & [fs aps] & [t sh] & [[p v] b] & H1 & _ & _ & _ & H5).
  apply earlyChecks_Next in H1 as (_ & _ & _ & _ & _ & _ & Hpay & _).
  assert (Sdk.direction order = Sdk.SELL) as Hsell.
  { destruct (Sdk.direction order) eqn:Hd; [done|].
    destruct Hpay as [Hw He]; [done|]. congruence. }
  unfold buildRow in H5.
  apply bind_Next_inv in H5 as (fb & _ & H5).
  apply bind_Next_inv in H5 as (n & _ & H5). injection H5 as <- _. simpl in *.
  unfold side, netValue in *. rewrite Hsell in *. simpl. split; [done|]. split; [done|].
  destruct (startsWithErc1155 order).
  - destruct Hpv as (q & _ & _ & -> & ->). done.
  - destruct Hpv as [-> ->]. done.
Qed.

Lemma only_sell_orders_when_tokens_differ_witness :
  ∃ row aw, handleOrderBody sampleEnv ∅ (listing "0xalice" "1") = Next (row, aw)
            ∧ DbOrder.side row = "sell" ∧ DbOrder.value row = DbOrder.price row.
Proof.
  destruct (handleOrderBody sampleEnv ∅ (listing "0xalice" "1")) as [[row aw]| |] eqn:Hb;
    [|vm_compute in Hb; discriminate..].
  exists row, aw. split; [reflexivity|].
  apply (only_sell_orders_when_tokens_differ sampleEnv ∅ (listing "0xalice" "1") row aw);
    [discriminate|exact Hb].
Defined.

(** ** When an order is reported as known or expired *)

(** X10. An order is reported as [already-exists] exactly when the SDK
    builds it and its hash is an identity of the table; nothing else about
    the order or the collaborators is looked at then. *)
Theorem already_exists_exactly_when (e : Env) (tbl : gmap string DbOrder.t)
    (oi : OrderInfo) (id : string) :
  handleOrderBody e tbl oi = Return id "already-exists" ↔
  ∃ order, newOrder e (orderParams oi) = Ok order
           ∧ id = hash e order
           ∧ is_Some (tbl !! id).
Proof.
  split.
  - intros H. invert_returned H.
    unfold earlyChecks in H.
    destruct (newOrder e (orderParams oi)) as [o|]; simpl in H; [|discriminate].
    exists o. split; [done|].
    destruct (tbl !! hash e o) as [r|] eqn:Hr; simpl in H; [by simplify_eq|].
    destruct (getContractKind e (Sdk.nft o)) as [[k|]|]; simpl in H; try discriminate.
    destruct (oneOrNone (select (nonceQuery e k o) tbl)) as [[r|]|?|] eqn:Hn; simpl in H;
      [discriminate| |by apply oneOrNone_Return in Hn|discriminate].
    repeat case_match; discriminate.
  - intros (order & Ho & -> & Hsome). by apply known_identity.
Qed.

(** X11. An order is reported as [expired] exactly when it is new to the
    table, its contract kind is known, the nonce lookup of that kind, which
    filters on the column [order_kind] of the table, finds no row, and its
    expiry is not after the clock: an order that expires at the very second
    of the check is expired. *)
Theorem expired_exactly_when (e : Env) (tbl : gmap string DbOrder.t)
    (oi : OrderInfo) (id : string) :
  handleOrderBody e tbl oi = Return id "expired" ↔
  ∃ order kind, newOrder e (orderParams oi) = Ok order
                ∧ id = hash e order
                ∧ tbl !! id = None
                ∧ getContractKind e (Sdk.nft order) = Ok (Some kind)
                ∧ select (nonceQuery e kind order) tbl = []
                ∧ Sdk.expiry order ≤ currentTime e.
Proof.
  split.
  - intros H. invert_returned H.
    unfold earlyChecks in H.
    destruct (newOrder e (orderParams oi)) as [o|]; simpl in H; [|discriminate].
    destruct (tbl !! hash e o) as [r|] eqn:Hr; simpl in H; [discriminate|].
    destruct (getContractKind e (Sdk.nft o)) as [[k|]|] eqn:Hk; simpl in H; try discriminate.
    destruct (oneOrNone (select (nonceQuery e k o) tbl)) as [[r|]|?|] eqn:Hn; simpl in H;
      [discriminate| |by apply oneOrNone_Return in Hn|discriminate].
    apply oneOrNone_None in Hn.
    destruct (Z.leb_spec (Sdk.expiry o) (currentTime e)) as [Hexp|Hexp].
    + injection H as <-. by exists o, k.
    + repeat case_match; discriminate.
  - intros (order & kind & Ho & -> & Hnew & Hk & Hn & Hexp).
    unfold handleOrderBody, earlyChecks.
    rewrite Ho. simpl. rewrite Hnew. simpl. rewrite Hk. simpl. rewrite Hn. simpl.
    by rewrite (proj2 (Z.leb_le _ _) Hexp).
Qed.

Lemma expired_exactly_when_witness :
  handleOrderBody (atTime sampleEnv 2000) ∅ (listing "0xalice" "1")
  = Return "0xalice/7/0xnft/1" "expired".
Proof.
  apply (expired_exactly_when (atTime sampleEnv 2000) ∅ (listing "0xalice" "1")).
  exists (orderParams (listing "0xalice" "1")), erc721.
  repeat split; vm_compute; discriminate.
Defined.

Lemma already_exists_exactly_when_witness :
  handleOrderBody sampleEnv
    (orders (save sampleEnv emptyWorld [listing "0xalice" "1"] false).1)
    (listing "0xalice" "1")
  = Return "0xalice/7/0xnft/1" "already-exists".
Proof.
  apply (already_exists_exactly_when sampleEnv _ (listing "0xalice" "1")).
  exists (orderParams (listing "0xalice" "1")). split; [reflexivity|]. split; [reflexivity|].
  destruct (orders _ !! _) as [r|] eqn:Hr; [by exists r|].
  vm_compute in Hr. discriminate.
Defined.

(** X12. An order that is not accepted stays so: with collaborators that
    answer the same, it is not accepted at any later time against any table
    that holds at least the same rows. *)
Theorem turned_away_for_good (e : Env) (t : Z) (tbl tbl' : gmap string DbOrder.t)
    (oi : OrderInfo) :
  tbl ⊆ tbl' → currentTime e ≤ t →
  (∀ ra, handleOrderBody e tbl oi ≠ Next ra) →
  ∀ ra, handleOrderBody (atTime e t) tbl' oi ≠ Next ra.
Proof.
  intros Hsub Ht Hnot ra H. apply (Hnot ra). by eapply accepted_antitone.
Qed.

Lemma turned_away_for_good_witness :
  acceptedOf (atTime sampleEnv 1500)
    (orders (save sampleEnv emptyWorld [listing "0xalice" "1"] false).1)
    (listing "0xerin" "2") = [].
Proof.
  unfold acceptedOf.
  destruct (handleOrderBody (atTime sampleEnv 1500) _ (listing "0xerin" "2"))
    as [ra| |] eqn:Hb; [exfalso|reflexivity..].
  revert Hb. apply (turned_away_for_good sampleEnv 1500 ∅).
  - apply map_empty_subseteq.
  - vm_compute. discriminate.
  - intros ra' H. vm_compute in H. discriminate.
Defined.

(** * Block bookkeeping *)

Section BlockFacts.

Context (toBuffer fromBuffer : string → string).

Local Abbreviation saveBlock := (Blocks.saveBlock toBuffer).
Local Abbreviation deleteBlock := (Blocks.deleteBlock toBuffer).
Local Abbreviation getBlocks := (Blocks.getBlocks fromBuffer).

Lemma getBlocks_elem (tbl : gset (string * Z)) (n : Z) (b : Blocks.Block) :
  b ∈ getBlocks tbl n ↔
  Blocks.number b = n ∧ ∃ bytes, (bytes, n) ∈ tbl ∧ Blocks.hash b = fromBuffer bytes.
Proof.
  unfold Blocks.getBlocks. rewrite list_elem_of_fmap. split.
  - intros ([bytes m] & -> & Hrow). apply elem_of_elements, elem_of_filter in Hrow.
    simpl in *. destruct Hrow as [-> Hrow]. split; [done|]. by exists bytes.
  - intros (Hn & bytes & Hrow & Hhash). exists (bytes, n). split.
    + destruct b as [h m]. simpl in *. by subst.
    + by apply elem_of_elements, elem_of_filter.
Qed.

Lemma other_height_unchanged (tbl : gset (string * Z)) (row : string * Z) (n : Z) :
  row.2 ≠ n →
  filter (λ row : string * Z, row.2 = n) ({[ row ]} ∪ tbl)
  = filter (λ row : string * Z, row.2 = n) tbl
  ∧ filter (λ row : string * Z, row.2 = n) (tbl ∖ {[ row ]})
    = filter (λ row : string * Z, row.2 = n) tbl.
Proof.
  intros Hn. split; apply set_eq; intros x;
    rewrite !elem_of_filter, ?elem_of_union, ?elem_of_difference, !elem_of_singleton;
    intuition congruence.
Qed.

(** X14. After [saveBlock], [getBlocks] at the block's height lists the
    block, with its hash as [fromBuffer] reads the stored bytes. Saving the
    block again changes nothing, no row is lost, and the list of every other
    height is as it was. *)
Theorem saved_block_is_listed (tbl : gset (string * Z)) (b : Blocks.Block) (n : Z) :
  n ≠ Blocks.number b →
  let tbl' := (saveBlock tbl b).1 in
  {| Blocks.hash := fromBuffer (toBuffer (Blocks.hash b)); Blocks.number := Blocks.number b |}
    ∈ getBlocks tbl' (Blocks.number b)
  ∧ (saveBlock tbl' b).1 = tbl'
  ∧ tbl ⊆ tbl'
  ∧ getBlocks tbl' n = getBlocks tbl n.
Proof.
  intros Hn tbl'. subst tbl'. unfold Blocks.saveBlock. simpl. split; [|split; [|split]].
  - apply getBlocks_elem. simpl. split; [done|].
    exists (toBuffer (Blocks.hash b)). split; [|done].
    apply elem_of_union_l, elem_of_singleton. done.
  - apply set_eq. intros x. rewrite !elem_of_union. tauto.
  - apply union_subseteq_r.
  - unfold Blocks.getBlocks.
    by rewrite (proj1 (other_height_unchanged tbl (toBuffer (Blocks.hash b), Blocks.number b) n
                         ltac:(simpl; congruence))).
Qed.

(** X15. [deleteBlock] removes the row of that height and those bytes and
    no other: every other row stays, the list of every other height is as
    it was, and deleting a block right after saving it gives back the table
    from before, when the block was not in it. *)
Theorem deleted_block_is_gone (tbl : gset (string * Z)) (n m : Z) (h : string) :
  m ≠ n →
  ((toBuffer h, n) ∉ deleteBlock tbl n h)
  ∧ (∀ row, row ≠ (toBuffer h, n) → row ∈ deleteBlock tbl n h ↔ row ∈ tbl)
  ∧ (∀ b, b ∈ getBlocks (deleteBlock tbl n h) n →
       ∃ bytes, bytes ≠ toBuffer h ∧ (bytes, n) ∈ tbl ∧ Blocks.hash b = fromBuffer bytes)
  ∧ getBlocks (deleteBlock tbl n h) m = getBlocks tbl m
  ∧ ((toBuffer h, n) ∉ tbl →
       deleteBlock (saveBlock tbl {| Blocks.hash := h; Blocks.number := n |}).1 n h = tbl).
Proof.
  intros Hm. unfold Blocks.deleteBlock, Blocks.saveBlock. simpl.
  split; [|split; [|split; [|split]]].
  - rewrite elem_of_difference, elem_of_singleton. tauto.
  - intros row Hrow. rewrite elem_of_difference, elem_of_singleton. tauto.
  - intros b Hb. apply getBlocks_elem in Hb as (_ & bytes & Hrow & Hhash).
    apply elem_of_difference in Hrow as [Hrow Hne]. rewrite elem_of_singleton in Hne.
    exists bytes. split; [congruence|done].
  - unfold Blocks.getBlocks.
    by rewrite (proj2 (other_height_unchanged tbl (toBuffer h, n) m
                         ltac:(simpl; congruence))).
  - intros Hnew. apply set_eq. intros x.
    rewrite elem_of_difference, elem_of_union, elem_of_singleton. split; [tauto|].
    intros Hx. split; [tauto|]. congruence.
Qed.

End BlockFacts.

Lemma saved_block_is_listed_witness :
  let tbl' := (Blocks.saveBlock Sources.toLower {[ ("0xaa", 7) ]}
                 {| Blocks.hash := "0xBB"; Blocks.number := 8 |}).1 in
  {| Blocks.hash := "0xbb"; Blocks.number := 8 |} ∈ Blocks.getBlocks id tbl' 8
  ∧ (Blocks.saveBlock Sources.toLower tbl' {| Blocks.hash := "0xBB"; Blocks.number := 8 |}).1
    = tbl'
  ∧ {[ ("0xaa", 7) ]} ⊆ tbl'
  ∧ Blocks.getBlocks id tbl' 7 = Blocks.getBlocks id {[ ("0xaa", 7) ]} 7.
Proof.
  apply (saved_block_is_listed Sources.toLower id {[ ("0xaa", 7) ]}
           {| Blocks.hash := "0xBB"; Blocks.number := 8 |} 7).
  discriminate.
Defined.

Lemma deleted_block_is_gone_witness :
  (("0xbb", 8) ∉ Blocks.deleteBlock Sources.toLower {[ ("0xaa", 7); ("0xbb", 8) ]} 8 "0xBB")
  ∧ Blocks.getBlocks id
      (Blocks.deleteBlock Sources.toLower {[ ("0xaa", 7); ("0xbb", 8) ]} 8 "0xBB") 7
    = Blocks.getBlocks id {[ ("0xaa", 7); ("0xbb", 8) ]} 7.
Proof.
  pose proof (deleted_block_is_gone Sources.toLower id {[ ("0xaa", 7); ("0xbb", 8) ]}
                8 7 "0xBB" ltac:(discriminate)) as (Hgone & _ & _ & Hother & _).
  split; [exact Hgone|exact Hother].
Defined.

(** * Loading the sources *)

Lemma assign_lookup key s (obj obj' : gmap string Sources.SourcesEntity) k :
  Sources.assign key s obj = Some obj' →
  obj' !! k = if decide (key = k) then Some s else obj !! k.
Proof.
  unfold Sources.assign. destruct (bool_decide (key = "__proto__")); [done|].
  intros [= <-]. apply lookup_insert.
Qed.

Lemma last_filter_cons {A} (P : A → Prop) `{!∀ x, Decision (P x)} (x : A) (l : list A) :
  last (filter P (x :: l))
  = match last (filter P l) with
    | Some y => Some y
    | None => if decide (P x) then Some x else None
    end.
Proof.
  rewrite filter_cons. destruct (decide (P x)); [|by destruct (last (filter P l))].
  rewrite last_cons. by destruct (last (filter P l)).
Qed.

(** The three lookup objects after a load: for each key, the last row
    loaded under it, and what was there before when no row has the key. *)
Lemma loadSources_lookup (rows : list Sources.SourcesEntity) (self self' : Sources.t) :
  Sources.loadSources self rows = Some self' →
  (∀ i, Sources.sources self' !! i
        = match last (filter (λ s, Sources.id s = i) rows) with
          | Some s => Some s
          | None => Sources.sources self !! i
          end)
  ∧ (∀ k, Sources.sourcesByNames self' !! k
          = match last (filter (λ s, Sources.toLower (Sources.name s) = k) rows) with
            | Some s => Some s
            | None => Sources.sourcesByNames self !! k
            end)
  ∧ (∀ k, Sources.sourcesByAddress self' !! k
          = match last (filter (λ s, Sources.toLower (Sources.address s) = k) rows) with
            | Some s => Some s
            | None => Sources.sourcesByAddress self !! k
            end).
Proof.
  revert self. induction rows as [|source rows IH]; intros self H; simpl in H.
  - by injection H as <-.
  - destruct (Sources.loadSource self source) as [self1|] eqn:H1; [|discriminate].
    simpl in H. apply IH in H as (Hid & Hname & Haddr).
    unfold Sources.loadSource in H1.
    destruct (Sources.assign _ _ (Sources.sourcesByNames self)) as [byNames|] eqn:Hn;
      [|discriminate].
    destruct (Sources.assign _ _ (Sources.sourcesByAddress self)) as [byAddress|] eqn:Ha;
      [|discriminate].
    injection H1 as <-. simpl in *.
    split; [|split]; intros k; rewrite last_filter_cons.
    + rewrite Hid. destruct (last _); [done|]. rewrite lookup_insert. by destruct (decide _).
    + rewrite Hname. destruct (last _); [done|].
      rewrite (assign_lookup _ _ _ _ k Hn). by destruct (decide _).
    + rewrite Haddr. destruct (last _); [done|].
      rewrite (assign_lookup _ _ _ _ k Ha). by destruct (decide _).
Qed.

(** X16. After [loadData], [get] answers, for an id, with the last of the
    loaded rows that has this id, and otherwise with what it answered
    before the load: a load adds and replaces entries and removes none. *)
Theorem get_after_load (forceDbLoad : bool) (st st' : Sources.Store)
    (self self' : Sources.t) (i : Z) :
  Sources.loadData forceDbLoad st self = Some (st', self') →
  Sources.get self' i
  = default (Sources.get self i)
      (last (filter (λ s, Sources.id s = i) (Sources.rowsToLoad forceDbLoad st))).
Proof.
  unfold Sources.loadData. intros H.
  destruct (Sources.loadSources self _) as [self1|] eqn:Hload; [|discriminate].
  injection H as _ <-. apply loadSources_lookup in Hload as (Hid & _).
  unfold Sources.get. rewrite Hid. by destruct (last _).
Qed.

(** X17. On names and addresses of ASCII characters: after [loadData],
    [getByName] answers, for a name in any letter case, with the last of
    the loaded rows whose name is the same up to letter case, and
    [getByAddress] without contract and token id does the same on
    addresses; for a name or an address that no loaded row has they answer
    as before the load. *)
Theorem lookup_after_load (cfg : Sources.Config) (forceDbLoad : bool)
    (st st' : Sources.Store) (self self' : Sources.t) (key : string) (returnDefault : bool) :
  Sources.loadData forceDbLoad st self = Some (st', self') →
  Sources.isAscii key = true →
  Forall (λ s, Sources.asciiSource s = true) (Sources.rowsToLoad forceDbLoad st) →
  let rows := Sources.rowsToLoad forceDbLoad st in
  Sources.getByName self' key returnDefault
  = match last (filter (λ s, Sources.toLower (Sources.name s) = Sources.toLower key) rows) with
    | Some s => Sources.Entity s
    | None => Sources.getByName self key returnDefault
    end
  ∧ Sources.getByAddress cfg self' key None None returnDefault
    = match last (filter (λ s, Sources.toLower (Sources.address s) = Sources.toLower key)
                    rows) with
      | Some s => Ok (Sources.Entity s)
      | None => Sources.getByAddress cfg self key None None returnDefault
      end.
Proof.
  intros H _ _ rows. subst rows. unfold Sources.loadData in H.
  destruct (Sources.loadSources self _) as [self1|] eqn:Hload; [|discriminate].
  injection H as _ <-. apply loadSources_lookup in Hload as (_ & Hname & Haddr).
  split.
  - unfold Sources.getByName, Sources.hasProperty, Sources.getProperty.
    rewrite Hname. destruct (last _) as [s|]; [|done].
    rewrite bool_decide_eq_true_2; [done|by eexists].
  - unfold Sources.getByAddress, Sources.hasProperty, Sources.getProperty.
    rewrite Haddr. destruct (last _) as [s|]; [|done].
    rewrite bool_decide_eq_true_2; [done|by eexists].
Qed.

Lemma loadSources_twice (rows : list Sources.SourcesEntity) (self self' : Sources.t) :
  Sources.loadSources self rows = Some self' →
  Sources.loadSources self' rows = Some self'.
Proof.
  intros Hload. pose proof Hload as (Hid & Hname & Haddr)%loadSources_lookup.
  assert (∀ l (cur : Sources.t),
            (∀ s, s ∈ l → Sources.toLower (Sources.name s) ≠ "__proto__"
                          ∧ Sources.toLower (Sources.address s) ≠ "__proto__") →
            is_Some (Sources.loadSources cur l)) as Hsome.
  { induction l as [|s l IH]; intros cur Hsafe; simpl; [by eexists|].
    destruct (Hsafe s) as [Hn Ha]; [apply list_elem_of_here|].
    unfold Sources.loadSource, Sources.assign.
    rewrite !bool_decide_eq_false_2 by done. simpl.
    apply IH. intros s' Hs'. apply Hsafe. by apply list_elem_of_further. }
  assert (∀ s, s ∈ rows → Sources.toLower (Sources.name s) ≠ "__proto__"
                          ∧ Sources.toLower (Sources.address s) ≠ "__proto__") as Hsafe.
  { clear Hid Hname Haddr. revert self Hload.
    induction rows as [|r rows IH]; intros self Hload s Hs; [by apply elem_of_nil in Hs|].
    simpl in Hload.
    destruct (Sources.loadSource self r) as [self1|] eqn:H1; [|discriminate].
    apply elem_of_cons in Hs as [->|Hs]; [|by eapply IH].
    unfold Sources.loadSource, Sources.assign in H1.
    destruct (bool_decide (Sources.toLower (Sources.name r) = "__proto__")) eqn:Hn;
      [discriminate|].
    destruct (bool_decide (Sources.toLower (Sources.address r) = "__proto__")) eqn:Ha;
      [discriminate|].
    by apply bool_decide_eq_false in Hn, Ha. }
  destruct (Hsome rows self' Hsafe) as [self2 Hload2]. rewrite Hload2. f_equal.
  apply loadSources_lookup in Hload2 as (Hid2 & Hname2 & Haddr2).
  destruct self' as [m1 m2 m3], self2 as [n1 n2 n3]. simpl in *. f_equal.
  - apply map_eq. intros i. rewrite Hid2, Hid. by destruct (last _).
  - apply map_eq. intros k. rewrite Hname2, Hname. by destruct (last _).
  - apply map_eq. intros k. rewrite Haddr2, Haddr. by destruct (last _).
Qed.

(** X18. [loadData] leaves the table as it is and leaves in the cache the
    rows it loaded. A load that is not forced and finds rows in the cache
    takes them and does not look at the table. A load that is not forced,
    right after any load, changes neither the store nor the instance. *)
Theorem load_and_cache (forceDbLoad : bool) (st st' : Sources.Store)
    (self self' : Sources.t) :
  Sources.loadData forceDbLoad st self = Some (st', self') →
  Sources.table st' = Sources.table st
  ∧ Sources.cache st' = Some (Sources.rowsToLoad forceDbLoad st)
  ∧ (∀ cached, Sources.cache st = Some cached → forceDbLoad = false →
       st' = st ∧ Sources.loadSources self cached = Some self')
  ∧ Sources.loadData false st' self' = Some (st', self').
Proof.
  unfold Sources.loadData. intros H.
  destruct (Sources.loadSources self _) as [self1|] eqn:Hload; [|discriminate].
  injection H as <- <-.
  set (st1 := match Sources.cache st with
              | Some _ =>
                  if forceDbLoad
                  then {| Sources.cache := Some (Sources.table st);
                          Sources.table := Sources.table st |}
                  else st
              | None => {| Sources.cache := Some (Sources.table st);
                           Sources.table := Sources.table st |}
              end).
  assert (Sources.cache st1 = Some (Sources.rowsToLoad forceDbLoad st)) as Hcache
    by (subst st1; unfold Sources.rowsToLoad;
        destruct (Sources.cache st) eqn:Hc, forceDbLoad; done).
  split; [subst st1; by destruct (Sources.cache st), forceDbLoad|]. split; [done|]. split.
  - intros cached Hc ->. subst st1. unfold Sources.rowsToLoad in Hload. rewrite Hc in *. done.
  - unfold Sources.rowsToLoad at 1. rewrite Hcache.
    by rewrite (loadSources_twice _ _ _ Hload).
Qed.

Lemma get_after_load_witness :
  ∃ st' self', Sources.loadData false sampleStore emptySources = Some (st', self')
    ∧ Sources.get self' 1 = sampleSource 1 "opensea" "0x123".
Proof.
  destruct (Sources.loadData false sampleStore emptySources) as [[st' self']|] eqn:H;
    [|vm_compute in H; discriminate].
  exists st', self'. split; [reflexivity|].
  rewrite (get_after_load false sampleStore st' emptySources self' 1 H). reflexivity.
Defined.

Lemma lookup_after_load_witness :
  ∃ st' self', Sources.loadData false sampleStore emptySources = Some (st', self')
    ∧ Sources.getByName self' "OPENSEA" true
      = Sources.Entity (sampleSource 1 "opensea" "0x123")
    ∧ Sources.getByAddress sampleConfig self' "0XABC" None None true
      = Ok (Sources.Entity (sampleSource 1 "OpenSea" "0xAbC")).
Proof.
  destruct (Sources.loadData false sampleStore emptySources) as [[st' self']|] eqn:H;
    [|vm_compute in H; discriminate].
  assert (Forall (λ s, Sources.asciiSource s = true) (Sources.rowsToLoad false sampleStore))
    as Hascii by (by repeat constructor).
  exists st', self'. split; [reflexivity|].
  split.
  - exact (proj1 (lookup_after_load sampleConfig false sampleStore st' emptySources self'
                    "OPENSEA" true H eq_refl Hascii)).
  - exact (proj2 (lookup_after_load sampleConfig false sampleStore st' emptySources self'
                    "0XABC" true H eq_refl Hascii)).
Defined.

Lemma load_and_cache_witness :
  ∃ st' self', Sources.loadData true sampleStore emptySources = Some (st', self')
    ∧ Sources.cache st' = Some (Sources.table sampleStore)
    ∧ Sources.loadData false st' self' = Some (st', self').
Proof.
  destruct (Sources.loadData true sampleStore emptySources) as [[st' self']|] eqn:H;
    [|vm_compute in H; discriminate].
  exists st', self'. split; [reflexivity|].
  destruct (load_and_cache true sampleStore st' emptySources self' H)
    as (_ & Hcache & _ & Hagain).
  split; [exact Hcache|exact Hagain].
Defined.

(** * [getOrInsert] *)

Lemma address_is_not_inherited (source : string) :
  Sources.isAddress source = true → Sources.toLower source ∉ Sources.objectPrototype.
Proof.
  destruct source as [|c0 [|c1 digits]]; simpl; try discriminate.
  intros H. apply andb_true_iff in H as [H _]. apply andb_true_iff in H as [H _].
  apply andb_true_iff in H as [H _]. apply Nat.eqb_eq in H.
  assert (c0 = Ascii.ascii_of_nat 48) as ->
    by (rewrite <-H; symmetry; apply Ascii.ascii_nat_embedding).
  unfold Sources.objectPrototype. intros Hin.
  repeat (apply elem_of_cons in Hin as [Hin|Hin]; [discriminate Hin|]).
  by apply elem_of_nil in Hin.
Qed.

(** X19. For a source of the shape of an address, [0x] and forty
    hexadecimal digits, [getOrInsert] looks only at the addresses: it
    returns the entity loaded under that address, letter case aside, and
    otherwise creates a source whose name and address are both the string
    it was given. It does not throw, and it never returns a member of
    [Object.prototype]. *)
Theorem getOrInsert_of_address (cfg : Sources.Config) (self : Sources.t)
    (randomHex source : string) :
  Sources.isAddress source = true →
  Sources.getOrInsert cfg self randomHex source
  = match Sources.sourcesByAddress self !! Sources.toLower source with
    | Some s => Sources.Returns (Sources.Entity s)
    | None => Sources.Creates source source
    end.
Proof.
  intros Haddr. pose proof (address_is_not_inherited _ Haddr) as Hproto.
  unfold Sources.getOrInsert, Sources.getByAddress, Sources.hasProperty, Sources.getProperty.
  rewrite Haddr.
  destruct (Sources.sourcesByAddress self !! Sources.toLower source) as [s|] eqn:Hs.
  - rewrite bool_decide_eq_true_2; [done|by eexists].
  - rewrite (bool_decide_eq_false_2 (is_Some None)) by (by intros [? ?]).
    by rewrite bool_decide_eq_false_2.
Qed.

Lemma getOrInsert_of_address_witness :
  Sources.getOrInsert sampleConfig emptySources "00"
    "0x00000000000000000000000000000000000000AB"
  = Sources.Creates "0x00000000000000000000000000000000000000AB"
      "0x00000000000000000000000000000000000000AB".
Proof.
  apply (getOrInsert_of_address sampleConfig emptySources "00"
           "0x00000000000000000000000000000000000000AB").
  reflexivity.
Defined.

Lemma last_filter_elem {A} (P : A → Prop) `{!∀ x, Decision (P x)} (l : list A) (x : A) :
  x ∈ l → P x → ∃ y, last (filter P l) = Some y ∧ y ∈ l ∧ P y.
Proof.
  intros Hx HP.
  destruct (last (filter P l)) as [y|] eqn:Hlast.
  - exists y. split; [done|]. apply last_Some_elem_of, list_elem_of_filter in Hlast. tauto.
  - apply last_None in Hlast. exfalso.
    by apply (filter_nil_not_elem_of P l x Hlast HP).
Qed.

(** X20. On names and addresses of ASCII characters: once a source is
    loaded, [getOrInsert] finds it and creates nothing. A string that is not
    of the shape of an address and equals the name of a loaded row up to
    letter case gives back a loaded row with such a name, and a string of
    the shape of an address that equals the address of a loaded row up to
    letter case gives back a loaded row with such an address. *)
Theorem getOrInsert_after_load (cfg : Sources.Config) (forceDbLoad : bool)
    (st st' : Sources.Store) (self self' : Sources.t) (randomHex key : string)
    (s : Sources.SourcesEntity) :
  Sources.loadData forceDbLoad st self = Some (st', self') →
  Sources.isAscii key = true →
  Forall (λ s, Sources.asciiSource s = true) (Sources.rowsToLoad forceDbLoad st) →
  s ∈ Sources.rowsToLoad forceDbLoad st →
  Sources.toLower (if Sources.isAddress key then Sources.address s else Sources.name s)
    = Sources.toLower key →
  ∃ s', Sources.getOrInsert cfg self' randomHex key = Sources.Returns (Sources.Entity s')
        ∧ s' ∈ Sources.rowsToLoad forceDbLoad st
        ∧ Sources.toLower (if Sources.isAddress key then Sources.address s'
                           else Sources.name s')
          = Sources.toLower key.
Proof.
  unfold Sources.loadData. intros H _ _ Hs Hkey.
  destruct (Sources.loadSources self _) as [self1|] eqn:Hload; [|discriminate].
  injection H as _ <-. apply loadSources_lookup in Hload as (_ & Hname & Haddr).
  unfold Sources.getOrInsert, Sources.getByAddress, Sources.getByName,
    Sources.hasProperty, Sources.getProperty.
  destruct (Sources.isAddress key).
  - destruct (last_filter_elem
                (λ s, Sources.toLower (Sources.address s) = Sources.toLower key) _ s Hs Hkey)
      as (s' & Hlast & Hs' & Hkey').
    exists s'. rewrite Haddr, Hlast. rewrite bool_decide_eq_true_2; [done|by eexists].
  - destruct (last_filter_elem
                (λ s, Sources.toLower (Sources.name s) = Sources.toLower key) _ s Hs Hkey)
      as (s' & Hlast & Hs' & Hkey').
    exists s'. rewrite Hname, Hlast. rewrite bool_decide_eq_true_2; [done|by eexists].
Qed.

Lemma getOrInsert_after_load_witness :
  ∃ st' self' s',
    Sources.loadData false sampleStore emptySources = Some (st', self')
    ∧ Sources.getOrInsert sampleConfig self' "00" "RARIBLE"
      = Sources.Returns (Sources.Entity s')
    ∧ s' ∈ Sources.table sampleStore.
Proof.
  destruct (Sources.loadData false sampleStore emptySources) as [[st' self']|] eqn:H;
    [|vm_compute in H; discriminate].
  destruct (getOrInsert_after_load sampleConfig false sampleStore st' emptySources self'
              "00" "RARIBLE" (sampleSource 2 "Rarible" "0xdef") H)
    as (s' & Hget & Hs' & _).
  - reflexivity.
  - by repeat constructor.
  - apply list_elem_of_further, list_elem_of_here.
  - reflexivity.
  - exists st', self', s'. split; [reflexivity|]. split; [exact Hget|exact Hs'].
Defined.
